(** * dyn_mem: a first-fit allocator over a fixed byte pool

    Shallow embedding of [src/mem/dyn_mem.c] and the properties of its
    operations.

    - [work_mem] is a list of bytes; every access outside it has no defined
      result ([None]).
    - A block header is the 32-bit little-endian word stored in the first
      four bytes of a block; bit 0 is the [used] field and bits 1..31 are
      the [d_size] field (first bit-field in the least significant bit).
    - [uint32_t] values are integers with the wrap-around modulo 2^32
      written out.
    - Pointers are [NULL], the address of [zero_mem], or an offset into
      [work_mem]. *)

From Stdlib Require Import ZArith List Lia Bool.
From coqutil Require Import Byte Word.LittleEndianList.
Import ListNotations.
Local Open Scope Z_scope.

(** ** Configuration ([misc_conf.h], not part of the sources) *)

Class Config := {
  DM_MEM_SIZE : Z;    (* size of [work_mem] in bytes *)
  DM_AUTO_ZERO : Z    (* non-zero: zero-fill every allocation *)
}.

(** ** Pointers and the memory monad *)

Inductive ptr :=
| NULL
| ZeroMem               (* [&zero_mem] *)
| WorkMem (off : Z).    (* [&work_mem[off]] *)

Definition ptr_eqb (p q : ptr) : bool :=
  match p, q with
  | NULL, NULL => true
  | ZeroMem, ZeroMem => true
  | WorkMem a, WorkMem b => a =? b
  | _, _ => false
  end.

(** Pointer arithmetic on [uint8_t *]; it is only defined inside an object. *)
Definition ptr_add (p : ptr) (k : Z) : ptr :=
  match p with
  | WorkMem o => WorkMem (o + k)
  | _ => p
  end.

(** A computation over [work_mem]: [None] is an access outside the pool
    (or a loop that did not finish within its bound). *)
Definition M (A : Type) : Type := list byte -> option (A * list byte).

Definition ret {A} (a : A) : M A := fun m => Some (a, m).
Definition fail {A} : M A := fun _ => None.
Definition bind {A B} (c : M A) (k : A -> M B) : M B :=
  fun m => match c m with
           | Some (a, m') => k a m'
           | None => None
           end.

Declare Scope mem_scope.
Delimit Scope mem_scope with mem.
Notation "x <- c ;; k" := (bind c (fun x => k))
  (at level 61, c at next level, right associativity) : mem_scope.
Notation "c ;; k" := (bind c (fun _ => k))
  (at level 61, right associativity) : mem_scope.
Local Open Scope mem_scope.

Definition in_bounds (m : list byte) (o n : Z) : bool :=
  (0 <=? o) && (0 <=? n) && (o + n <=? Z.of_nat (length m)).

Definition read_bytes (m : list byte) (o n : Z) : list byte :=
  firstn (Z.to_nat n) (skipn (Z.to_nat o) m).

Definition write_bytes (m : list byte) (o : Z) (bs : list byte) : list byte :=
  firstn (Z.to_nat o) m ++ bs ++ skipn (Z.to_nat o + length bs) m.

(** Load and store of a 32-bit little-endian word at offset [o]. *)
Definition load32 (o : Z) : M Z :=
  fun m => if in_bounds m o 4
           then Some (le_combine (read_bytes m o 4), m)
           else None.

Definition store32 (o w : Z) : M unit :=
  fun m => if in_bounds m o 4
           then Some (tt, write_bytes m o (le_split 4 w))
           else None.

(** [memset(p, c, n)] *)
Definition memset (p : ptr) (c : byte) (n : Z) : M unit :=
  match p with
  | WorkMem o =>
      fun m => if in_bounds m o n
               then Some (tt, write_bytes m o (repeat c (Z.to_nat n)))
               else None
  | _ => if n =? 0 then ret tt else fail
  end.

(** [memcpy(dst, src, n)]: the two ranges must lie in the pool and must not
    overlap. *)
Definition memcpy (dst src : ptr) (n : Z) : M unit :=
  if n =? 0 then ret tt else
  match dst, src with
  | WorkMem d, WorkMem s =>
      fun m => if in_bounds m d n && in_bounds m s n
                  && ((d + n <=? s) || (s + n <=? d))
               then Some (tt, write_bytes m d (read_bytes m s n))
               else None
  | _, _ => fail
  end.

(** ** The header union [dm_header_t] *)

Definition header_size : Z := 4.   (* sizeof(dm_header_t) *)

Definition wrap32 (z : Z) : Z := z mod 2 ^ 32.

Definition hdr_used (w : Z) : Z := Z.land w 1.
Definition hdr_d_size (w : Z) : Z := Z.shiftr w 1.
Definition hdr_with_used (w v : Z) : Z :=
  Z.lor (Z.shiftl (Z.shiftr w 1) 1) (Z.land v 1).
Definition hdr_with_d_size (w v : Z) : Z :=
  Z.lor (Z.land w 1) (Z.shiftl (Z.land v (Z.ones 31)) 1).

Definition load_header (e : ptr) : M Z :=
  match e with
  | WorkMem o => load32 o
  | _ => fail
  end.

Definition store_header (e : ptr) (w : Z) : M unit :=
  match e with
  | WorkMem o => store32 o w
  | _ => fail
  end.

(* e->header.used *)
Definition get_used (e : ptr) : M Z :=
  w <- load_header e ;; ret (hdr_used w).
(* e->header.d_size *)
Definition get_d_size (e : ptr) : M Z :=
  w <- load_header e ;; ret (hdr_d_size w).
(* e->header.used = v *)
Definition set_used (e : ptr) (v : Z) : M unit :=
  w <- load_header e ;; store_header e (hdr_with_used w v).
(* e->header.d_size = v *)
Definition set_d_size (e : ptr) (v : Z) : M unit :=
  w <- load_header e ;; store_header e (hdr_with_d_size w v).

(** Modelled from the spec: the statistics record [dm_mon_t] of [dyn_mem.h]
    (free block count, used block count, free byte total, largest free block,
    fragmentation percentage). *)
Record dm_mon_t := {
  cnt_free : Z;
  cnt_used : Z;
  size_free : Z;
  size_free_big : Z;
  pct_frag : Z
}.

Section Allocator.
Context {cfg : Config}.

(** The static storage of [work_mem] before [dm_init]. *)
Definition work_mem0 : list byte := repeat Byte.x00 (Z.to_nat DM_MEM_SIZE).

Definition dm_init : M unit :=
  let full := WorkMem 0 in
  set_used full 0 ;;
  set_d_size full (DM_MEM_SIZE - header_size).

Definition ent_get_next (act_e : ptr) : M ptr :=
  match act_e with
  | NULL => ret (WorkMem 0)
  | _ =>
      let data := ptr_add act_e header_size in      (* &act_e->first_data *)
      d <- get_d_size act_e ;;
      match ptr_add data d with
      | WorkMem n =>
          if n + header_size >=? DM_MEM_SIZE then ret NULL
          else ret (WorkMem n)
      | q => ret q
      end
  end.

Definition ent_trunc (e : ptr) (size : Z) : M ptr :=
  d <- get_d_size e ;;
  let size := if d =? wrap32 (size + header_size)
              then wrap32 (size + header_size) else size in
  d <- get_d_size e ;;
  (if negb (d =? size) then
     let e_data := ptr_add e header_size in
     let new_e := ptr_add e_data size in
     set_used new_e 0 ;;
     d <- get_d_size e ;;
     set_d_size new_e (d - size - header_size)
   else ret tt) ;;
  set_d_size e size ;;
  ret e.

Definition ent_alloc (e : ptr) (size : Z) : M ptr :=
  u <- get_used e ;;
  if u =? 0 then
    d <- get_d_size e ;;
    if d >=? size then
      ent_trunc e size ;;
      set_used e 1 ;;
      ret (ptr_add e header_size)
    else ret NULL
  else ret NULL.

(** The [do ... while] of [dm_alloc]; [n] bounds the number of rounds. *)
Fixpoint alloc_search (n : nat) (e alloc : ptr) (size : Z) : M ptr :=
  match n with
  | O => fail
  | S n' =>
      e <- ent_get_next e ;;
      alloc <- (if negb (ptr_eqb e NULL) then ent_alloc e size
                else ret alloc) ;;
      if negb (ptr_eqb e NULL) && ptr_eqb alloc NULL
      then alloc_search n' e alloc size
      else ret alloc
  end.

(** Every round moves at least one header forward. *)
Definition max_rounds : nat := S (Z.to_nat DM_MEM_SIZE).

(** "Round the size up to 4" *)
Definition round_up4 (size : Z) : Z :=
  if negb (Z.land size 3 =? 0)
  then wrap32 (Z.land size (wrap32 (Z.lnot 3)) + 4)
  else size.

Definition dm_alloc (size : Z) : M ptr :=
  if size =? 0 then ret ZeroMem else
  let size := round_up4 size in
  alloc <- alloc_search max_rounds NULL NULL size ;;
  (if negb (DM_AUTO_ZERO =? 0) then
     if negb (ptr_eqb alloc NULL) then memset alloc Byte.x00 size
     else ret tt
   else ret tt) ;;
  ret alloc.

Definition dm_free (data_dp : ptr) : M unit :=
  if ptr_eqb data_dp ZeroMem then ret tt else
  if ptr_eqb data_dp NULL then ret tt else
  let e := ptr_add data_dp (- header_size) in
  set_used e 0.

Definition dm_get_size (data_dp : ptr) : M Z :=
  if ptr_eqb data_dp ZeroMem then ret 0 else
  let e := ptr_add data_dp (- header_size) in
  get_d_size e.

(** Modelled from the spec: [min] of [math_base.h], the smaller of two
    sizes. *)
Definition min (a b : Z) : Z := if a <? b then a else b.

Definition dm_realloc (data_p : ptr) (new_size : Z) : M ptr :=
  new_p <- dm_alloc new_size ;;
  (if negb (ptr_eqb new_p NULL) && negb (ptr_eqb data_p NULL) then
     old_size <- dm_get_size data_p ;;
     if negb (old_size =? 0) then
       memcpy new_p data_p (min new_size old_size) ;;
       dm_free data_p
     else ret tt
   else ret tt) ;;
  ret new_p.

Definition dm_defrag : M unit := ret tt.

Definition mon_zero : dm_mon_t :=
  {| cnt_free := 0; cnt_used := 0; size_free := 0;
     size_free_big := 0; pct_frag := 0 |}.

(** The body of the [while] of [dm_monitor] for one entry. *)
Definition monitor_step (e : ptr) (mon : dm_mon_t) : M dm_mon_t :=
  u <- get_used e ;;
  if u =? 0 then
    d <- get_d_size e ;;
    let mon := {| cnt_free := wrap32 (cnt_free mon + 1);
                  cnt_used := cnt_used mon;
                  size_free := wrap32 (size_free mon + d);
                  size_free_big := size_free_big mon;
                  pct_frag := pct_frag mon |} in
    d <- get_d_size e ;;
    if d >? size_free_big mon then
      d <- get_d_size e ;;
      ret {| cnt_free := cnt_free mon;
             cnt_used := cnt_used mon;
             size_free := size_free mon;
             size_free_big := d;
             pct_frag := pct_frag mon |}
    else ret mon
  else
    ret {| cnt_free := cnt_free mon;
           cnt_used := wrap32 (cnt_used mon + 1);
           size_free := size_free mon;
           size_free_big := size_free_big mon;
           pct_frag := pct_frag mon |}.

Fixpoint monitor_loop (n : nat) (e : ptr) (mon : dm_mon_t) : M dm_mon_t :=
  match n with
  | O => fail
  | S n' =>
      if negb (ptr_eqb e NULL) then
        mon <- monitor_step e mon ;;
        e <- ent_get_next e ;;
        monitor_loop n' e mon
      else ret mon
  end.

Definition dm_monitor : M dm_mon_t :=
  let mon := mon_zero in                       (* memset(mon_p, 0, ...) *)
  e <- ent_get_next NULL ;;
  mon <- monitor_loop max_rounds e mon ;;
  if size_free mon =? 0 then fail             (* division by zero *)
  else
    let pct := wrap32 (size_free_big mon * 100) / size_free mon in
    ret {| cnt_free := cnt_free mon;
           cnt_used := cnt_used mon;
           size_free := size_free mon;
           size_free_big := size_free_big mon;
           pct_frag := 100 - pct |}.

End Allocator.

(** ** Addresses

    [work_mem] and [zero_mem] are two distinct objects; [work_mem_addr] and
    [zero_mem_addr] are the addresses the linker gave them. *)

Record Placement := {
  work_mem_addr : Z;
  zero_mem_addr : Z
}.

Definition addr_of (pl : Placement) (p : ptr) : Z :=
  match p with
  | NULL => 0
  | ZeroMem => zero_mem_addr pl
  | WorkMem o => work_mem_addr pl + o
  end.

(** ** The block chain as a list

    A block is its [used] flag and its payload; its [d_size] is the length of
    the payload.  [layout bs] is the byte image of the blocks [bs] laid out
    one after the other, each as header then payload. *)

Record block := {
  blk_used : bool;
  blk_data : list byte
}.

Definition blk_size (b : block) : Z := Z.of_nat (length (blk_data b)).

Definition hdr_word (u : bool) (n : Z) : Z := Z.lor (Z.b2z u) (Z.shiftl n 1).

Definition hdr_bytes (u : bool) (n : Z) : list byte :=
  le_split 4 (hdr_word u n).

Definition blk_bytes (b : block) : list byte :=
  hdr_bytes (blk_used b) (blk_size b) ++ blk_data b.

Definition layout (bs : list block) : list byte := flat_map blk_bytes bs.

Definition len (m : list byte) : Z := Z.of_nat (length m).

(** Payload address of the block that follows the blocks [pre]. *)
Definition payload_of (pre : list block) : ptr :=
  WorkMem (len (layout pre) + header_size).

Definition blk_ok (b : block) : Prop :=
  0 < blk_size b /\ blk_size b mod 4 = 0.

Definition mark (u : bool) (b : block) : block :=
  {| blk_used := u; blk_data := blk_data b |}.

(** A block fits a request of [k] bytes when it is free and large enough. *)
Definition fits (k : Z) (b : block) : bool :=
  negb (blk_used b) && (k <=? blk_size b).

(** What [ent_alloc] makes of a fitting block: the block itself when nothing
    or only a header would remain, otherwise the block cut to [k] bytes and a
    free block made of the rest. *)
Definition split_block (k : Z) (b : block) : list block :=
  if (blk_size b =? k) || (blk_size b =? k + header_size) then
    [ mark true b ]
  else
    [ {| blk_used := true; blk_data := firstn (Z.to_nat k) (blk_data b) |};
      {| blk_used := false;
         blk_data := skipn (Z.to_nat (k + header_size)) (blk_data b) |} ].

Definition zero_fill (k : Z) (b : block) : block :=
  {| blk_used := blk_used b;
     blk_data := repeat Byte.x00 (Z.to_nat k) ++ skipn (Z.to_nat k) (blk_data b) |}.

(** Mathematical rounding to the next multiple of four. *)
Definition ceil4 (n : Z) : Z := 4 * ((n + 3) / 4).

Section Chain.
Context {cfg : Config}.

(** The pool in a consistent state: the image of a chain of blocks with
    non-empty, 4-aligned payloads that fills [work_mem] exactly. *)
Definition arena (bs : list block) (m : list byte) : Prop :=
  m = layout bs /\ len m = DM_MEM_SIZE /\ Forall blk_ok bs.

Definition auto_zero (k : Z) (bs : list block) : list block :=
  match bs with
  | b :: r => if negb (DM_AUTO_ZERO =? 0) then zero_fill k b :: r else bs
  | [] => []
  end.

(** Entries met by following [ent_get_next] from [e]:
    offset, [used] and [d_size] of each. *)
Fixpoint walk (n : nat) (e : ptr) : M (list (ptr * Z * Z)) :=
  match n with
  | O => fail
  | S n' =>
      if ptr_eqb e NULL then ret []
      else
        u <- get_used e ;;
        d <- get_d_size e ;;
        next <- ent_get_next e ;;
        rest <- walk n' next ;;
        ret ((e, u, d) :: rest)
  end.

Definition chain : M (list (ptr * Z * Z)) :=
  e <- ent_get_next NULL ;; walk max_rounds e.

(** [covers o es]: the entries [es] start at [o], each one starts where the
    previous one ends, and the last one ends at the end of the pool. *)
Fixpoint covers (o : Z) (es : list (ptr * Z * Z)) : bool :=
  match es with
  | [] => o =? DM_MEM_SIZE
  | (WorkMem p, _, d) :: r =>
      (p =? o) && covers (o + header_size + d) r
  | _ => false
  end.

Definition tiles (m : list byte) : bool :=
  match chain m with
  | Some (e :: es, _) => covers 0 (e :: es)
  | _ => false
  end.

(** Statistics of a chain, as a reference for [dm_monitor]. *)
Definition free_sizes (bs : list block) : list Z :=
  map blk_size (filter (fun b => negb (blk_used b)) bs).

Definition count_free (bs : list block) : Z :=
  Z.of_nat (length (filter (fun b => negb (blk_used b)) bs)).

Definition count_used (bs : list block) : Z :=
  Z.of_nat (length (filter blk_used bs)).

Definition total_free (bs : list block) : Z :=
  fold_right Z.add 0 (free_sizes bs).

Definition largest_free (bs : list block) : Z :=
  fold_right Z.max 0 (free_sizes bs).

(** The public operations, for sequences of calls. *)
Inductive call :=
| Alloc (size : Z)
| Free (p : ptr)
| Realloc (p : ptr) (new_size : Z)
| Monitor
| Defrag.

Definition do_call (c : call) : M unit :=
  match c with
  | Alloc n => dm_alloc n ;; ret tt
  | Free p => dm_free p
  | Realloc p n => dm_realloc p n ;; ret tt
  | Monitor => dm_monitor ;; ret tt
  | Defrag => dm_defrag
  end.

End Chain.

(** ** Concrete pools used in the examples *)

Definition conf16 : Config := {| DM_MEM_SIZE := 16; DM_AUTO_ZERO := 0 |}.
Definition conf32 : Config := {| DM_MEM_SIZE := 32; DM_AUTO_ZERO := 0 |}.
Definition place0 : Placement :=
  {| work_mem_addr := 4096; zero_mem_addr := 8192 |}.

Definition ff8 : list byte := repeat Byte.xff 8.

(** Entries of a chain laid out from offset [o], as the walk reports
    them. *)
Fixpoint entries_from (o : Z) (bs : list block) : list (ptr * Z * Z) :=
  match bs with
  | [] => []
  | b :: r =>
      (WorkMem o, Z.b2z (blk_used b), blk_size b)
      :: entries_from (o + header_size + blk_size b) r
  end.

(** The block [d] after [c] bytes of the payload of [s] were copied to the
    start of its payload. *)
Definition copy_into (c : Z) (s d : block) : block :=
  {| blk_used := blk_used d;
     blk_data := firstn (Z.to_nat c) (blk_data s)
                 ++ skipn (Z.to_nat c) (blk_data d) |}.

(** A handle the caller holds: [NULL], the address of [zero_mem], or the
    payload pointer of a used block of the chain. *)
Definition valid_handle (bs : list block) (p : ptr) : Prop :=
  p = NULL \/ p = ZeroMem \/
  exists pre b post,
    bs = pre ++ b :: post /\ blk_used b = true /\ p = payload_of pre.

(** A call on valid handles whose size does not wrap when rounded. *)
Definition valid_call (bs : list block) (c : call) : Prop :=
  match c with
  | Alloc n => 0 <= n <= 2 ^ 32 - 4
  | Free p => valid_handle bs p
  | Realloc p n => valid_handle bs p /\ 0 <= n <= 2 ^ 32 - 4
  | Monitor => True
  | Defrag => True
  end.

(** The pools reached from the initialised pool by such calls, and by the
    caller storing bytes into the payload of a block it holds. *)
Inductive reachable {cfg : Config} : list byte -> Prop :=
| reach_init m :
    dm_init work_mem0 = Some (tt, m) -> reachable m
| reach_call bs m c m' :
    reachable m -> arena bs m -> valid_call bs c ->
    do_call c m = Some (tt, m') -> reachable m'
| reach_store pre b post d m :
    reachable m -> arena (pre ++ b :: post) m -> blk_used b = true ->
    length d = length (blk_data b) ->
    reachable (layout (pre ++ {| blk_used := true; blk_data := d |} :: post)).


(** Computations that only read the pool. *)
Definition read_only {A} (c : M A) : Prop :=
  forall m a m', c m = Some (a, m') -> m' = m.


(** A block that [ent_alloc] passes over. *)
Definition unfit (k : Z) (b : block) : Prop := fits k b = false.

(** The record [dm_monitor] has built after the blocks [bs]. *)
Definition stats_of (bs : list block) : dm_mon_t :=
  {| cnt_free := count_free bs; cnt_used := count_used bs;
     size_free := total_free bs; size_free_big := largest_free bs;
     pct_frag := 0 |}.

Definition zeros (n : nat) : list byte := repeat Byte.x00 n.
Definition free_blk (d : list byte) : block := {| blk_used := false; blk_data := d |}.
Definition used_blk (d : list byte) : block := {| blk_used := true; blk_data := d |}.

(* a 16-byte pool after [dm_init] *)
Definition pool16 : list byte := layout [free_blk (zeros 12)].
(* a 16-byte pool whose only block is in use *)
Definition pool16_full : list byte := layout [used_blk (zeros 12)].
(* a 32-byte pool after [dm_init] *)
Definition pool32 : list byte := layout [free_blk (zeros 28)].
(* a 32-byte pool after [dm_init] and [dm_alloc(8)] *)
Definition pool32_a : list byte :=
  layout [used_blk (zeros 8); free_blk (zeros 16)].
(* a 32-byte pool: a free block of 4, a used block of 8 filled with 0xff,
   a free block of 8 *)
Definition pool32_b : list byte :=
  layout [free_blk (zeros 4); used_blk ff8; free_blk (zeros 8)].

(* [pool32] after [dm_alloc(4294967295)]: a used block without payload,
   then a free block of 24 bytes *)
Definition pool32_w : list byte :=
  layout [used_blk []; free_blk (zeros 24)].
(* [pool32_a] after the caller filled the 8 bytes it holds with 0xff *)
Definition pool32_f : list byte :=
  layout [used_blk ff8; free_blk (zeros 16)].
(* [pool32_f] after [dm_realloc(p, 4294967295)] of its used block: headers
   at 0 and 12, and the 8 payload bytes copied to offsets 16..23 *)
Definition pool32_c : list byte :=
  hdr_bytes false 8 ++ ff8 ++ hdr_bytes true 0 ++ ff8 ++ zeros 8.
(* [pool32_b] after [dm_realloc(p, 4294967295)] of its used block *)
Definition pool32_d : list byte :=
  hdr_bytes true 4
  ++ [Byte.xff; Byte.xff; Byte.xff; Byte.xff]
  ++ [Byte.xfe; Byte.xff; Byte.xff; Byte.xff]
  ++ ff8 ++ hdr_bytes false 8 ++ zeros 8.

(** Offset of the payload of the block that follows the blocks [pre]. *)
Definition payload_off (pre : list block) : Z :=
  len (layout pre) + header_size.


(* [pool32_a] after [dm_realloc] of its used block to 4294967295 bytes: the
   block of 8 bytes is free, a used block without payload follows, and the
   16 bytes behind it are zero *)
Definition pool32_r : list byte :=
  layout [free_blk (zeros 8); used_blk []] ++ zeros 16.

(* a pool of 42949680 bytes *)
Definition conf_big : Config :=
  {| DM_MEM_SIZE := 42949680; DM_AUTO_ZERO := 0 |}.
(* its only block after [dm_init] on zeroed memory *)
Definition blk_big : block := free_blk (skipn 4 (@work_mem0 conf_big)).

(** An entry reported by the walk whose header lies inside [work_mem]. *)
Definition entry_in_pool {cfg : Config} (e : ptr * Z * Z) : Prop :=
  exists o,
    fst (fst e) = WorkMem o /\ 0 <= o /\ o + header_size <= DM_MEM_SIZE
    /\ 0 <= snd e.

(** * Properties *)

Ltac zdm := Z.div_mod_to_equations; lia.

(** ** Header words *)

Lemma lor_shiftl1 a b : 0 <= a < 2 -> Z.lor a (Z.shiftl b 1) = a + 2 * b.
Proof.
  intros H. rewrite Z.shiftl_mul_pow2 by lia. change (2 ^ 1) with 2.
  rewrite (Z.mul_comm b 2).
  assert (a = 0 \/ a = 1) as [-> | ->] by lia.
  - rewrite Z.lor_0_l. lia.
  - apply Z.bits_inj'. intros n Hn. rewrite Z.lor_spec.
    replace (1 + 2 * b) with (2 * b + 1) by lia.
    destruct (Z.eq_dec n 0) as [-> | Hne].
    + rewrite Z.testbit_odd_0. reflexivity.
    + replace n with (Z.succ (n - 1)) by lia.
      rewrite Z.testbit_odd_succ, Z.testbit_even_succ by lia.
      change 1 with (2 * 0 + 1) at 1. rewrite Z.testbit_odd_succ by lia.
      rewrite Z.bits_0. reflexivity.
Qed.

Lemma b2z_range u : 0 <= Z.b2z u < 2.
Proof. destruct u; simpl; lia. Qed.

Lemma hdr_word_eq u n : hdr_word u n = Z.b2z u + 2 * n.
Proof. unfold hdr_word. apply lor_shiftl1, b2z_range. Qed.

Lemma land_1 w : Z.land w 1 = w mod 2.
Proof. change 1 with (Z.ones 1). rewrite Z.land_ones by lia. reflexivity. Qed.

Lemma hdr_used_eq w : hdr_used w = w mod 2.
Proof. apply land_1. Qed.

Lemma hdr_d_size_eq w : hdr_d_size w = w / 2.
Proof. unfold hdr_d_size. rewrite Z.shiftr_div_pow2 by lia. reflexivity. Qed.

Lemma hdr_with_used_eq w v : hdr_with_used w v = 2 * (w / 2) + v mod 2.
Proof.
  unfold hdr_with_used. rewrite Z.lor_comm, land_1.
  rewrite lor_shiftl1 by zdm.
  rewrite Z.shiftr_div_pow2 by lia. change (2 ^ 1) with 2. lia.
Qed.

Lemma hdr_with_d_size_eq w v :
  hdr_with_d_size w v = w mod 2 + 2 * (v mod 2 ^ 31).
Proof.
  unfold hdr_with_d_size. rewrite land_1, Z.land_ones by lia.
  apply lor_shiftl1. zdm.
Qed.

Lemma hdr_used_word u n : hdr_used (hdr_word u n) = Z.b2z u.
Proof. rewrite hdr_used_eq, hdr_word_eq. pose proof (b2z_range u). zdm. Qed.

Lemma hdr_d_size_word u n : hdr_d_size (hdr_word u n) = n.
Proof. rewrite hdr_d_size_eq, hdr_word_eq. pose proof (b2z_range u). zdm. Qed.

Lemma hdr_with_used_word u n (v : bool) :
  hdr_with_used (hdr_word u n) (Z.b2z v) = hdr_word v n.
Proof.
  rewrite hdr_with_used_eq, !hdr_word_eq.
  pose proof (b2z_range u). pose proof (b2z_range v). zdm.
Qed.

Lemma hdr_with_d_size_word u n v :
  0 <= v < 2 ^ 31 -> hdr_with_d_size (hdr_word u n) v = hdr_word u v.
Proof.
  intros Hv. rewrite hdr_with_d_size_eq, !hdr_word_eq.
  rewrite (Z.mod_small v) by lia. pose proof (b2z_range u). zdm.
Qed.

Lemma hdr_word_wrap u n : 0 <= n < 2 ^ 31 -> wrap32 (hdr_word u n) = hdr_word u n.
Proof.
  intros Hn. unfold wrap32. rewrite hdr_word_eq. pose proof (b2z_range u).
  apply Z.mod_small. lia.
Qed.


Lemma combine_split32 w : le_combine (le_split 4 w) = wrap32 w.
Proof. rewrite le_combine_split. reflexivity. Qed.

(** ** Bytes in the middle of a list *)

Lemma len_app a b : len (a ++ b) = len a + len b.
Proof. unfold len. rewrite length_app. lia. Qed.

Lemma len_nonneg a : 0 <= len a.
Proof. unfold len. lia. Qed.

Lemma in_bounds_mid pre w post o n :
  o = len pre -> n = len w -> in_bounds (pre ++ w ++ post) o n = true.
Proof.
  intros -> ->. unfold in_bounds, len. rewrite !length_app.
  repeat (apply andb_true_intro; split); apply Z.leb_le; lia.
Qed.

Lemma read_bytes_mid pre w post o n :
  o = len pre -> n = len w -> read_bytes (pre ++ w ++ post) o n = w.
Proof.
  intros -> ->. unfold read_bytes, len. rewrite !Nat2Z.id.
  rewrite skipn_app, skipn_all, Nat.sub_diag. simpl.
  rewrite firstn_app, firstn_all, Nat.sub_diag. simpl. apply app_nil_r.
Qed.

Lemma write_bytes_mid pre w post o w' :
  o = len pre -> length w' = length w ->
  write_bytes (pre ++ w ++ post) o w' = pre ++ w' ++ post.
Proof.
  intros -> Hl. unfold write_bytes, len. rewrite !Nat2Z.id, Hl.
  rewrite firstn_app, firstn_all, Nat.sub_diag. simpl. rewrite app_nil_r.
  f_equal. f_equal.
  rewrite skipn_app, skipn_all2 by lia.
  replace (length pre + length w - length pre)%nat with (length w) by lia.
  rewrite skipn_app, skipn_all, Nat.sub_diag. reflexivity.
Qed.

Lemma load32_mid pre w post o :
  o = len pre -> length w = 4%nat ->
  load32 o (pre ++ w ++ post) = Some (le_combine w, pre ++ w ++ post).
Proof.
  intros Ho Hw. unfold load32.
  rewrite in_bounds_mid by (auto; unfold len; lia).
  rewrite read_bytes_mid by (auto; unfold len; lia).
  reflexivity.
Qed.

Lemma store32_mid pre w post o v :
  o = len pre -> length w = 4%nat ->
  store32 o v (pre ++ w ++ post) = Some (tt, pre ++ le_split 4 v ++ post).
Proof.
  intros Ho Hw. unfold store32.
  rewrite in_bounds_mid by (auto; unfold len; lia).
  rewrite write_bytes_mid by (auto; rewrite length_le_split; auto).
  reflexivity.
Qed.

(** ** Header fields of an entry inside the pool *)

Lemma bind_some {A B} (c : M A) (k : A -> M B) m a m' :
  c m = Some (a, m') -> bind c k m = k a m'.
Proof. intros H. unfold bind. rewrite H. reflexivity. Qed.

Lemma length_hdr_bytes u n : length (hdr_bytes u n) = 4%nat.
Proof. apply length_le_split. Qed.

Lemma combine_hdr_bytes u n :
  0 <= n < 2 ^ 31 -> le_combine (hdr_bytes u n) = hdr_word u n.
Proof.
  intros Hn. unfold hdr_bytes. rewrite combine_split32. apply hdr_word_wrap, Hn.
Qed.

Section Fields.
Variables (pre rest : list byte) (u : bool) (n o : Z) (m : list byte).
Hypothesis Hm : m = pre ++ hdr_bytes u n ++ rest.
Hypothesis Ho : o = len pre.
Hypothesis Hn : 0 <= n < 2 ^ 31.

Lemma load_header_at : load_header (WorkMem o) m = Some (hdr_word u n, m).
Proof.
  simpl. rewrite Hm.
  rewrite (load32_mid pre _ rest o Ho (length_hdr_bytes u n)).
  rewrite combine_hdr_bytes by exact Hn. reflexivity.
Qed.

Lemma get_used_at : get_used (WorkMem o) m = Some (Z.b2z u, m).
Proof.
  unfold get_used. rewrite (bind_some _ _ _ _ _ load_header_at).
  unfold ret. rewrite hdr_used_word. reflexivity.
Qed.

Lemma get_d_size_at : get_d_size (WorkMem o) m = Some (n, m).
Proof.
  unfold get_d_size. rewrite (bind_some _ _ _ _ _ load_header_at).
  unfold ret. rewrite hdr_d_size_word. reflexivity.
Qed.

Lemma set_used_at (v : bool) :
  set_used (WorkMem o) (Z.b2z v) m = Some (tt, pre ++ hdr_bytes v n ++ rest).
Proof.
  unfold set_used. rewrite (bind_some _ _ _ _ _ load_header_at).
  simpl. rewrite Hm.
  rewrite (store32_mid pre _ rest o _ Ho (length_hdr_bytes u n)).
  rewrite hdr_with_used_word. reflexivity.
Qed.

Lemma set_d_size_at v :
  0 <= v < 2 ^ 31 ->
  set_d_size (WorkMem o) v m = Some (tt, pre ++ hdr_bytes u v ++ rest).
Proof.
  intros Hv. unfold set_d_size. rewrite (bind_some _ _ _ _ _ load_header_at).
  simpl. rewrite Hm.
  rewrite (store32_mid pre _ rest o _ Ho (length_hdr_bytes u n)).
  rewrite hdr_with_d_size_word by exact Hv. reflexivity.
Qed.
End Fields.


(** ** One entry: [ent_get_next], [ent_trunc], [ent_alloc] *)

Lemma bind_assoc {A B C} (c : M A) (k1 : A -> M B) (k2 : B -> M C) m :
  bind (bind c k1) k2 m = bind c (fun x => bind (k1 x) k2) m.
Proof. unfold bind. destruct (c m) as [[a m'] |]; reflexivity. Qed.

Lemma bind_ret {A B} (a : A) (k : A -> M B) m : bind (ret a) k m = k a m.
Proof. reflexivity. Qed.

Ltac norm := repeat (rewrite bind_assoc || rewrite bind_ret); cbv beta zeta.
Ltac step H := norm; rewrite (bind_some _ _ _ _ _ H); cbv beta zeta.
Ltac zb_true := symmetry; first [apply Z.eqb_eq | apply Z.leb_le | apply Z.geb_le | apply Z.ltb_lt | apply Z.gtb_lt]; lia.
Ltac zb_false := symmetry; first [apply Z.eqb_neq | apply Z.leb_gt | apply Z.ltb_ge]; lia.

Ltac reshape new :=
  match goal with
  | |- bind _ _ ?m = _ =>
      replace m with new by (rewrite <- ?app_assoc; reflexivity)
  end.

Lemma geb_false a b : a < b -> (a >=? b) = false.
Proof. intros H. rewrite Z.geb_leb. apply Z.leb_gt. lia. Qed.

Lemma geb_true a b : b <= a -> (a >=? b) = true.
Proof. intros H. rewrite Z.geb_leb. apply Z.leb_le. lia. Qed.

Lemma blk_size_nonneg b : 0 <= blk_size b.
Proof. unfold blk_size. lia. Qed.

Lemma len_hdr_bytes u n : len (hdr_bytes u n) = 4.
Proof. unfold len. rewrite length_hdr_bytes. reflexivity. Qed.

Lemma len_blk_bytes b : len (blk_bytes b) = header_size + blk_size b.
Proof.
  unfold blk_bytes. rewrite len_app, len_hdr_bytes. reflexivity.
Qed.

Lemma layout_cons b bs : layout (b :: bs) = blk_bytes b ++ layout bs.
Proof. reflexivity. Qed.

Lemma layout_app a b : layout (a ++ b) = layout a ++ layout b.
Proof. unfold layout. apply flat_map_app. Qed.

Lemma layout_one b : layout [b] = blk_bytes b.
Proof. unfold layout. cbn [flat_map]. apply app_nil_r. Qed.

(** Any four bytes are the image of some header. *)
Lemma any_header w :
  length w = 4%nat -> exists u n, 0 <= n < 2 ^ 31 /\ w = hdr_bytes u n.
Proof.
  intros Hw. pose proof (le_combine_bound w) as Hb. rewrite Hw in Hb.
  change (2 ^ (8 * Z.of_nat 4)) with (2 ^ 32) in Hb.
  exists (Z.odd (le_combine w)), (le_combine w / 2). split.
  - change (2 ^ 32) with 4294967296 in Hb. change (2 ^ 31) with 2147483648. zdm.
  - unfold hdr_bytes. rewrite hdr_word_eq.
    replace (Z.b2z (Z.odd (le_combine w)) + 2 * (le_combine w / 2))
      with (le_combine w).
    + rewrite <- Hw at 1. symmetry. apply split_le_combine.
    + pose proof (Zmod_odd (le_combine w)) as Ho.
      destruct (Z.odd (le_combine w)); cbn [Z.b2z]; zdm.
Qed.

Section Entry.
Context {cfg : Config}.

Lemma ent_get_next_at pre u n rest o m :
  m = pre ++ hdr_bytes u n ++ rest -> o = len pre -> 0 <= n < 2 ^ 31 ->
  ent_get_next (WorkMem o) m
  = Some (if o + header_size + n + header_size >=? DM_MEM_SIZE
          then NULL else WorkMem (o + header_size + n), m).
Proof.
  intros Hm Ho Hn. unfold ent_get_next.
  step (get_d_size_at pre rest u n o m Hm Ho Hn).
  cbn [ptr_add].
  destruct (o + header_size + n + header_size >=? DM_MEM_SIZE); reflexivity.
Qed.

Lemma ent_alloc_unfit pre b post k o m :
  m = pre ++ blk_bytes b ++ post -> o = len pre -> blk_size b < 2 ^ 31 ->
  fits k b = false ->
  ent_alloc (WorkMem o) k m = Some (NULL, m).
Proof.
  intros Hm Ho Hn Hf. pose proof (blk_size_nonneg b) as H0.
  unfold blk_bytes in Hm. rewrite <- app_assoc in Hm.
  unfold ent_alloc.
  step (get_used_at pre _ _ _ o m Hm Ho (conj H0 Hn)).
  unfold fits in Hf.
  destruct (blk_used b); simpl; [reflexivity|].
  step (get_d_size_at pre _ _ _ o m Hm Ho (conj H0 Hn)).
  simpl in Hf. rewrite geb_false; [reflexivity|].
  apply Z.leb_gt in Hf. lia.
Qed.

Lemma ent_alloc_fit pre b post k o m :
  m = pre ++ blk_bytes b ++ post -> o = len pre -> blk_size b < 2 ^ 31 ->
  fits k b = true -> 0 <= k ->
  blk_size b = k \/ k + header_size <= blk_size b ->
  ent_alloc (WorkMem o) k m
  = Some (WorkMem (o + header_size), pre ++ layout (split_block k b) ++ post).
Proof.
  intros Hm Ho Hn Hf Hk Hcase. pose proof (blk_size_nonneg b) as H0.
  unfold fits in Hf. apply andb_prop in Hf. destruct Hf as [Hu Hle].
  apply negb_true_iff in Hu. apply Z.leb_le in Hle.
  destruct b as [bu data]. simpl in Hu. subst bu.
  unfold blk_bytes in Hm. cbn [blk_used blk_data] in Hm.
  rewrite <- app_assoc in Hm.
  set (n := blk_size {| blk_used := false; blk_data := data |}) in *.
  assert (Hr : 0 <= n < 2 ^ 31) by lia.
  assert (Hw : wrap32 (k + header_size) = k + header_size).
  { unfold wrap32, header_size. apply Z.mod_small. lia. }
  unfold ent_alloc.
  step (get_used_at pre _ _ _ o m Hm Ho Hr). cbn [Z.b2z Z.eqb].
  step (get_d_size_at pre _ _ _ o m Hm Ho Hr).
  rewrite geb_true by lia.
  unfold ent_trunc. norm.
  step (get_d_size_at pre _ _ _ o m Hm Ho Hr).
  step (get_d_size_at pre _ _ _ o m Hm Ho Hr).
  rewrite Hw. cbn [ptr_add].
  unfold split_block. fold n.
  destruct (Z.eq_dec n (k + header_size)) as [E4 | N4].
  - (* only a header would remain *)
    replace (n =? k + header_size) with true by zb_true.
    cbv iota. rewrite orb_true_r.
    replace (n =? k + header_size) with true by zb_true. cbn [negb].
    step (set_d_size_at pre _ _ _ o m Hm Ho Hr (k + header_size) ltac:(lia)).
    rewrite <- E4.
    step (set_used_at pre (data ++ post) false n o _ eq_refl Ho Hr true).
    unfold ret. rewrite layout_one. unfold blk_bytes, mark.
    cbn [blk_used blk_data]. fold n. rewrite <- app_assoc. reflexivity.
  - replace (n =? k + header_size) with false by zb_false.
    cbv iota. rewrite orb_false_r.
    destruct (Z.eq_dec n k) as [E | N].
    + (* exact fit *)
      replace (n =? k) with true by zb_true. cbn [negb].
      step (set_d_size_at pre _ _ _ o m Hm Ho Hr k ltac:(lia)).
      rewrite <- E.
      step (set_used_at pre (data ++ post) false n o _ eq_refl Ho Hr true).
      unfold ret. rewrite layout_one. unfold blk_bytes, mark.
      cbn [blk_used blk_data]. fold n. rewrite <- app_assoc. reflexivity.
    + (* split *)
      replace (n =? k) with false by zb_false. cbn [negb].
      assert (Hlen : (Z.to_nat k + 4 <= length data)%nat).
      { unfold n, blk_size, header_size in *. cbn [blk_data] in *. lia. }
      set (d1 := firstn (Z.to_nat k) data).
      set (w := firstn 4 (skipn (Z.to_nat k) data)).
      set (d2 := skipn (Z.to_nat (k + header_size)) data).
      assert (Hd1 : len d1 = k).
      { unfold len, d1. rewrite length_firstn. lia. }
      assert (Hlw : length w = 4%nat).
      { unfold w. rewrite length_firstn, length_skipn. lia. }
      assert (Hd2 : len d2 = n - k - header_size).
      { unfold len, d2, n, blk_size, header_size in *. cbn [blk_data] in *.
        rewrite length_skipn. lia. }
      assert (Hdata : data = d1 ++ w ++ d2).
      { unfold d1, w, d2, header_size.
        replace (Z.to_nat (k + 4)) with (4 + Z.to_nat k)%nat by lia.
        rewrite <- skipn_skipn, !firstn_skipn. reflexivity. }
      destruct (any_header w Hlw) as (u' & n' & Hn' & Hwe).
      cbn [blk_data]. fold d1 d2.
      assert (Hnew : o + header_size + k = len (pre ++ hdr_bytes false n ++ d1)).
      { rewrite !len_app, len_hdr_bytes. unfold header_size. lia. }
      assert (Hv : 0 <= n - k - header_size < 2 ^ 31).
      { unfold header_size in *. lia. }
      rewrite Hm, Hdata, Hwe.
      reshape ((pre ++ hdr_bytes false n ++ d1) ++ hdr_bytes u' n' ++ (d2 ++ post)).
      step (set_used_at (pre ++ hdr_bytes false n ++ d1) (d2 ++ post)
              u' n' _ _ eq_refl Hnew Hn' false).
      reshape (pre ++ hdr_bytes false n
               ++ (d1 ++ hdr_bytes false n' ++ d2 ++ post)).
      step (get_d_size_at pre (d1 ++ hdr_bytes false n' ++ d2 ++ post)
              false n o _ eq_refl Ho Hr).
      reshape ((pre ++ hdr_bytes false n ++ d1) ++ hdr_bytes false n' ++ (d2 ++ post)).
      step (set_d_size_at (pre ++ hdr_bytes false n ++ d1) (d2 ++ post)
              false n' _ _ eq_refl Hnew Hn' _ Hv).
      reshape (pre ++ hdr_bytes false n
               ++ (d1 ++ hdr_bytes false (n - k - header_size) ++ d2 ++ post)).
      step (set_d_size_at pre
              (d1 ++ hdr_bytes false (n - k - header_size) ++ d2 ++ post)
              false n o _ eq_refl Ho Hr k ltac:(lia)).
      step (set_used_at pre
              (d1 ++ hdr_bytes false (n - k - header_size) ++ d2 ++ post)
              false k o _ eq_refl Ho ltac:(lia) true).
      unfold ret. rewrite layout_cons, layout_one. unfold blk_bytes, blk_size.
      cbn [blk_used blk_data]. fold (len d1) (len d2). rewrite Hd1, Hd2.
      rewrite <- !app_assoc. reflexivity.
Qed.
End Entry.

(** ** Rounding of the request size *)

Lemma land_3 n : Z.land n 3 = n mod 4.
Proof. change 3 with (Z.ones 2). rewrite Z.land_ones by lia. reflexivity. Qed.

Lemma land_mask n :
  0 <= n < 2 ^ 32 -> Z.land n (wrap32 (Z.lnot 3)) = 4 * (n / 4).
Proof.
  intros Hn.
  replace (wrap32 (Z.lnot 3)) with (Z.shiftl (Z.ones 30) 2) by reflexivity.
  transitivity (Z.shiftl (Z.shiftr n 2) 2).
  - apply Z.bits_inj'. intros i Hi.
    rewrite Z.land_spec.
    destruct (Z.ltb_spec i 2) as [Hlt | Hge].
    + rewrite !Z.shiftl_spec_low by lia. apply andb_false_r.
    + rewrite !Z.shiftl_spec by lia. rewrite Z.shiftr_spec by lia.
      replace (i - 2 + 2) with i by lia.
      destruct (Z.ltb_spec i 32) as [Hlt | Hge'].
      * rewrite Z.ones_spec_low by lia. apply andb_true_r.
      * rewrite Z.ones_spec_high by lia. rewrite andb_false_r.
        symmetry. destruct (Z.eq_dec n 0) as [-> | Hn0].
        -- apply Z.bits_0.
        -- apply Z.bits_above_log2; [lia|].
           apply Z.log2_lt_pow2; [lia|].
           apply Z.lt_le_trans with (2 ^ 32); [lia|].
           apply Z.pow_le_mono_r; lia.
  - rewrite Z.shiftl_mul_pow2, Z.shiftr_div_pow2 by lia.
    change (2 ^ 2) with 4. lia.
Qed.

Section Rounding.
Context {cfg : Config}.

Lemma round_up4_eq n :
  0 <= n < 2 ^ 32 ->
  round_up4 n = if n mod 4 =? 0 then n else wrap32 (4 * (n / 4) + 4).
Proof.
  intros Hn. unfold round_up4. rewrite land_3.
  destruct (n mod 4 =? 0); cbn [negb]; [reflexivity|].
  rewrite land_mask by exact Hn. reflexivity.
Qed.

(** Below the wrap-around the rounding is the mathematical one. *)
Lemma round_up4_ceil n :
  0 <= n <= 2 ^ 32 - 4 -> round_up4 n = ceil4 n.
Proof.
  intros Hn. rewrite round_up4_eq by lia. unfold ceil4, wrap32.
  change (2 ^ 32) with 4294967296 in *.
  destruct (Z.eqb_spec (n mod 4) 0) as [E | E].
  - zdm.
  - rewrite Z.mod_small by zdm. zdm.
Qed.

Lemma round_up4_range n :
  0 <= n < 2 ^ 32 ->
  0 <= round_up4 n < 2 ^ 32 /\ round_up4 n mod 4 = 0.
Proof.
  intros Hn. rewrite round_up4_eq by lia. unfold wrap32.
  change (2 ^ 32) with 4294967296 in *.
  destruct (Z.eqb_spec (n mod 4) 0) as [E | E].
  - split; [lia | exact E].
  - split; zdm.
Qed.

Lemma ceil4_spec n : n <= ceil4 n < n + 4 /\ ceil4 n mod 4 = 0.
Proof. unfold ceil4. zdm. Qed.
End Rounding.

(** ** Walking the chain *)

Lemma len_layout_cons b bs :
  len (layout (b :: bs)) = header_size + blk_size b + len (layout bs).
Proof. rewrite layout_cons, len_app, len_blk_bytes. reflexivity. Qed.

Lemma len_layout_app a b : len (layout (a ++ b)) = len (layout a) + len (layout b).
Proof. rewrite layout_app. apply len_app. Qed.

Lemma len_layout_ge bs : 4 * Z.of_nat (length bs) <= len (layout bs).
Proof.
  induction bs as [| b bs IH]; [unfold len; simpl; lia|].
  rewrite len_layout_cons. pose proof (blk_size_nonneg b).
  unfold header_size. cbn [length]. lia.
Qed.

Lemma layout_mid pre b post :
  layout (pre ++ b :: post)
  = layout pre ++ hdr_bytes (blk_used b) (blk_size b)
    ++ (blk_data b ++ layout post).
Proof.
  rewrite layout_app, layout_cons. unfold blk_bytes.
  rewrite <- !app_assoc. reflexivity.
Qed.

Lemma layout_mid_blk pre b post :
  layout (pre ++ b :: post) = layout pre ++ blk_bytes b ++ layout post.
Proof. rewrite layout_app, layout_cons. reflexivity. Qed.


Section Search.
Context {cfg : Config}.
Hypothesis size_max : DM_MEM_SIZE <= 2 ^ 31.

Lemma blk_size_lt pre b post :
  len (layout (pre ++ b :: post)) = DM_MEM_SIZE -> blk_size b < 2 ^ 31.
Proof.
  rewrite len_layout_app, len_layout_cons.
  pose proof (len_nonneg (layout pre)). pose proof (len_nonneg (layout post)).
  unfold header_size. lia.
Qed.

Lemma next_last pre b m :
  m = layout (pre ++ [b]) -> len m = DM_MEM_SIZE ->
  ent_get_next (WorkMem (len (layout pre))) m = Some (NULL, m).
Proof.
  intros Hm Hl. pose proof (blk_size_nonneg b) as H0.
  assert (Hlt : blk_size b < 2 ^ 31) by (rewrite Hm in Hl; eapply blk_size_lt, Hl).
  rewrite Hm, len_layout_app, len_layout_cons in Hl.
  change (len (layout [])) with 0 in Hl.
  rewrite Hm at 1. rewrite layout_mid.
  rewrite (ent_get_next_at _ _ _ _ _ _ eq_refl eq_refl (conj H0 Hlt)).
  rewrite geb_true by (unfold header_size in *; lia).
  rewrite <- layout_mid, <- Hm. reflexivity.
Qed.

Lemma next_inner pre b b' post m :
  m = layout (pre ++ b :: b' :: post) -> len m = DM_MEM_SIZE ->
  0 < blk_size b' ->
  ent_get_next (WorkMem (len (layout pre))) m
  = Some (WorkMem (len (layout (pre ++ [b]))), m).
Proof.
  intros Hm Hl Hpos. pose proof (blk_size_nonneg b) as H0.
  assert (Hlt : blk_size b < 2 ^ 31) by (rewrite Hm in Hl; eapply blk_size_lt, Hl).
  rewrite Hm, len_layout_app, !len_layout_cons in Hl.
  pose proof (len_nonneg (layout post)).
  rewrite Hm at 1. rewrite layout_mid.
  rewrite (ent_get_next_at _ _ _ _ _ _ eq_refl eq_refl (conj H0 Hlt)).
  rewrite geb_false by (unfold header_size in *; lia).
  rewrite <- layout_mid, <- Hm.
  rewrite len_layout_app, len_layout_cons.
  change (len (layout [])) with 0.
  do 3 f_equal. lia.
Qed.

Lemma snoc_cons {A} (pre : list A) b post : (pre ++ [b]) ++ post = pre ++ b :: post.
Proof. rewrite <- app_assoc. reflexivity. Qed.

(** The search, started at an entry that did not fit, passes over the
    entries that do not fit and stops at the first one that does. *)
Lemma alloc_search_hit k b post : forall mid pre0 b0 m n,
  m = layout (pre0 ++ b0 :: mid ++ b :: post) ->
  len m = DM_MEM_SIZE ->
  Forall blk_ok (mid ++ [b]) -> Forall (unfit k) mid ->
  fits k b = true -> 0 <= k -> k mod 4 = 0 ->
  (length mid < n)%nat ->
  alloc_search n (WorkMem (len (layout pre0))) NULL k m
  = Some (payload_of (pre0 ++ b0 :: mid),
          layout ((pre0 ++ b0 :: mid) ++ split_block k b ++ post)).
Proof.
  induction mid as [| c mid IH]; intros pre0 b0 m n Hm Hl Hok Hun Hfit Hk Hk4 Hn.
  - destruct n as [| n]; [cbn [length] in Hn; lia|].
    cbn [alloc_search app] in *.
    apply Forall_inv in Hok. destruct Hok as [Hpos Hal].
    step (next_inner pre0 b0 b post m Hm Hl Hpos).
    cbn [ptr_eqb negb].
    assert (Hm' : m = layout (pre0 ++ [b0]) ++ blk_bytes b ++ layout post).
    { rewrite Hm, <- layout_mid_blk, snoc_cons. reflexivity. }
    assert (Hlt : blk_size b < 2 ^ 31).
    { eapply (blk_size_lt (pre0 ++ [b0]) b post).
      rewrite snoc_cons, <- Hm. exact Hl. }
    assert (Hcase : blk_size b = k \/ k + header_size <= blk_size b).
    { unfold fits in Hfit. apply andb_prop in Hfit. destruct Hfit as [_ Hle].
      apply Z.leb_le in Hle. unfold header_size. zdm. }
    step (ent_alloc_fit _ b _ k _ m Hm' eq_refl Hlt Hfit Hk Hcase).
    cbn [ptr_eqb andb]. unfold ret, payload_of.
    rewrite !layout_app. reflexivity.
  - destruct n as [| n]; [cbn [length] in Hn; lia|].
    cbn [alloc_search app] in *.
    pose proof (Forall_inv Hok) as [Hpos Hal].
    step (next_inner pre0 b0 c (mid ++ b :: post) m Hm Hl Hpos).
    cbn [ptr_eqb negb].
    assert (Hm' : m = layout (pre0 ++ [b0]) ++ blk_bytes c
                      ++ layout (mid ++ b :: post)).
    { rewrite Hm, <- layout_mid_blk, snoc_cons. reflexivity. }
    assert (Hlt : blk_size c < 2 ^ 31).
    { eapply (blk_size_lt (pre0 ++ [b0]) c (mid ++ b :: post)).
      rewrite snoc_cons, <- Hm. exact Hl. }
    step (ent_alloc_unfit _ c _ k _ m Hm' eq_refl Hlt (Forall_inv Hun)).
    cbn [ptr_eqb andb].
    rewrite (IH (pre0 ++ [b0]) c m n); try assumption.
    + rewrite !snoc_cons. reflexivity.
    + rewrite snoc_cons. exact Hm.
    + apply (Forall_inv_tail Hok).
    + apply (Forall_inv_tail Hun).
    + cbn [length] in Hn. lia.
Qed.

(** When nothing fits, the search ends with [NULL] and writes nothing. *)
Lemma alloc_search_miss k : forall mid pre0 b0 m n,
  m = layout (pre0 ++ b0 :: mid) ->
  len m = DM_MEM_SIZE ->
  Forall blk_ok mid -> Forall (unfit k) mid ->
  (length mid < n)%nat ->
  alloc_search n (WorkMem (len (layout pre0))) NULL k m = Some (NULL, m).
Proof.
  induction mid as [| c mid IH]; intros pre0 b0 m n Hm Hl Hok Hun Hn.
  - destruct n as [| n]; [cbn [length] in Hn; lia|].
    cbn [alloc_search].
    step (next_last pre0 b0 m Hm Hl). reflexivity.
  - destruct n as [| n]; [cbn [length] in Hn; lia|].
    cbn [alloc_search].
    pose proof (Forall_inv Hok) as [Hpos Hal].
    step (next_inner pre0 b0 c mid m Hm Hl Hpos).
    cbn [ptr_eqb negb].
    assert (Hm' : m = layout (pre0 ++ [b0]) ++ blk_bytes c ++ layout mid).
    { rewrite Hm, <- layout_mid_blk, snoc_cons. reflexivity. }
    assert (Hlt : blk_size c < 2 ^ 31).
    { eapply (blk_size_lt (pre0 ++ [b0]) c mid).
      rewrite snoc_cons, <- Hm. exact Hl. }
    step (ent_alloc_unfit _ c _ k _ m Hm' eq_refl Hlt (Forall_inv Hun)).
    cbn [ptr_eqb andb].
    apply (IH (pre0 ++ [b0]) c m n).
    + rewrite snoc_cons. exact Hm.
    + exact Hl.
    + apply (Forall_inv_tail Hok).
    + apply (Forall_inv_tail Hun).
    + cbn [length] in Hn. lia.
Qed.
End Search.

(** ** [dm_alloc] on a consistent pool *)

Lemma blk_size_zero_fill k b :
  0 <= k <= blk_size b -> blk_size (zero_fill k b) = blk_size b.
Proof.
  intros Hk. unfold blk_size, zero_fill in *. cbn [blk_data].
  rewrite length_app, repeat_length, length_skipn. lia.
Qed.

Lemma memset_payload pre b post k :
  0 <= k <= blk_size b ->
  memset (payload_of pre) Byte.x00 k (layout (pre ++ b :: post))
  = Some (tt, layout (pre ++ zero_fill k b :: post)).
Proof.
  intros Hk. unfold payload_of, memset.
  rewrite !layout_mid. rewrite blk_size_zero_fill by exact Hk.
  cbn [zero_fill blk_used blk_data].
  set (h := hdr_bytes (blk_used b) (blk_size b)).
  set (d1 := firstn (Z.to_nat k) (blk_data b)).
  set (d2 := skipn (Z.to_nat k) (blk_data b)).
  assert (Hd : blk_data b = d1 ++ d2) by (symmetry; apply firstn_skipn).
  assert (Hl1 : length d1 = Z.to_nat k).
  { unfold d1. rewrite length_firstn. unfold blk_size in Hk. lia. }
  assert (Ho : len (layout pre) + header_size = len (layout pre ++ h)).
  { rewrite len_app. unfold h. rewrite len_hdr_bytes. reflexivity. }
  assert (Hk' : k = len d1) by (unfold len; lia).
  replace (layout pre ++ h ++ blk_data b ++ layout post)
    with ((layout pre ++ h) ++ d1 ++ (d2 ++ layout post))
    by (rewrite Hd, <- !app_assoc; reflexivity).
  rewrite (in_bounds_mid _ _ _ _ _ Ho Hk').
  rewrite (write_bytes_mid _ d1 _ _ _ Ho)
    by (rewrite repeat_length; lia).
  rewrite <- !app_assoc. reflexivity.
Qed.

Lemma split_block_head k b :
  0 <= k <= blk_size b -> blk_size b = k \/ k + header_size <= blk_size b ->
  exists b1 r, split_block k b = b1 :: r /\ k <= blk_size b1.
Proof.
  intros Hk Hcase. unfold split_block.
  destruct ((blk_size b =? k) || (blk_size b =? k + header_size)).
  - eexists _, _. split; [reflexivity|]. unfold blk_size, mark in *. cbn [blk_data]. lia.
  - eexists _, _. split; [reflexivity|]. unfold blk_size, header_size in *.
    cbn [blk_data]. rewrite length_firstn. lia.
Qed.

Section Alloc.
Context {cfg : Config}.
Hypothesis size_min : 8 <= DM_MEM_SIZE.
Hypothesis size_max : DM_MEM_SIZE <= 2 ^ 31.

Lemma arena_fuel bs m :
  arena bs m -> (length bs < max_rounds)%nat.
Proof using Type.
  clear size_min size_max.
  intros (Hm & Hl & _). pose proof (len_layout_ge bs) as H.
  rewrite <- Hm, Hl in H. unfold max_rounds. lia.
Qed.

Lemma fits_case k b :
  fits k b = true -> k mod 4 = 0 -> blk_size b mod 4 = 0 ->
  blk_size b = k \/ k + header_size <= blk_size b.
Proof.
  intros Hfit Hk Hb. unfold fits in Hfit. apply andb_prop in Hfit.
  destruct Hfit as [_ Hle]. apply Z.leb_le in Hle. unfold header_size. zdm.
Qed.

(** The search of [dm_alloc] from the start of the pool. *)
Lemma alloc_search_first_fit k pre b post m :
  arena (pre ++ b :: post) m -> 0 <= k -> k mod 4 = 0 ->
  Forall (unfit k) pre -> fits k b = true ->
  alloc_search max_rounds NULL NULL k m
  = Some (payload_of pre, layout (pre ++ split_block k b ++ post)).
Proof.
  intros Har Hk Hk4 Hun Hfit.
  pose proof (arena_fuel _ _ Har) as Hfuel.
  destruct Har as (Hm & Hl & Hok).
  unfold max_rounds in *. cbn [alloc_search].
  unfold ent_get_next at 1. rewrite bind_ret. cbn [ptr_eqb negb].
  destruct pre as [| b0 mid].
  - cbn [app] in *.
    assert (Hm' : m = [] ++ blk_bytes b ++ layout post) by exact Hm.
    assert (Hlt : blk_size b < 2 ^ 31).
    { apply (blk_size_lt size_max [] b post). cbn [app]. rewrite <- Hm. exact Hl. }
    pose proof (Forall_inv Hok) as [Hpos Hal].
    step (ent_alloc_fit [] b _ k 0 m Hm' eq_refl Hlt Hfit Hk
            (fits_case k b Hfit Hk4 Hal)).
    cbn [ptr_eqb andb app]. unfold ret, payload_of.
    rewrite layout_app. reflexivity.
  - cbn [app] in Hm.
    assert (Hm' : m = [] ++ blk_bytes b0 ++ layout (mid ++ b :: post)) by exact Hm.
    assert (Hlt : blk_size b0 < 2 ^ 31).
    { apply (blk_size_lt size_max [] b0 (mid ++ b :: post)). cbn [app].
      rewrite <- Hm. exact Hl. }
    step (ent_alloc_unfit [] b0 _ k 0 m Hm' eq_refl Hlt (Forall_inv Hun)).
    cbn [ptr_eqb andb].
    apply (alloc_search_hit size_max k b post mid [] b0 m); try assumption.
    + cbn [app] in Hok. apply Forall_inv_tail in Hok.
      apply Forall_app in Hok. destruct Hok as [Hmid Hb].
      apply Forall_app. split; [exact Hmid|].
      constructor; [exact (Forall_inv Hb) | constructor].
    + apply (Forall_inv_tail Hun).
    + cbn [app length] in Hfuel. rewrite length_app in Hfuel. lia.
Qed.

Lemma alloc_search_none k bs m :
  arena bs m -> Forall (unfit k) bs ->
  alloc_search max_rounds NULL NULL k m = Some (NULL, m).
Proof.
  intros Har Hun.
  pose proof (arena_fuel _ _ Har) as Hfuel.
  destruct Har as (Hm & Hl & Hok).
  unfold max_rounds in *. cbn [alloc_search].
  unfold ent_get_next at 1. rewrite bind_ret. cbn [ptr_eqb negb].
  destruct bs as [| b0 mid].
  - (* an empty chain has no bytes *)
    rewrite Hm in Hl. change (len (layout [])) with 0 in Hl. lia.
  - assert (Hm' : m = [] ++ blk_bytes b0 ++ layout mid) by exact Hm.
    assert (Hlt : blk_size b0 < 2 ^ 31).
    { apply (blk_size_lt size_max [] b0 mid). cbn [app]. rewrite <- Hm. exact Hl. }
    step (ent_alloc_unfit [] b0 _ k 0 m Hm' eq_refl Hlt (Forall_inv Hun)).
    cbn [ptr_eqb andb].
    apply (alloc_search_miss size_max k mid [] b0 m); try assumption.
    + apply (Forall_inv_tail Hok).
    + apply (Forall_inv_tail Hun).
    + cbn [length] in Hfuel. lia.
Qed.
End Alloc.

Lemma fit_or_not k bs :
  Forall (unfit k) bs \/
  exists pre b post,
    bs = pre ++ b :: post /\ Forall (unfit k) pre /\ fits k b = true.
Proof.
  induction bs as [| c bs IH].
  - left. constructor.
  - destruct (fits k c) eqn:Hc.
    + right. exists [], c, bs. repeat split; [constructor | exact Hc].
    + destruct IH as [Hall | (pre & b & post & -> & Hun & Hfit)].
      * left. constructor; assumption.
      * right. exists (c :: pre), b, post.
        repeat split; [constructor; assumption | exact Hfit].
Qed.

Lemma fits_size k b : fits k b = true -> blk_used b = false /\ k <= blk_size b.
Proof.
  unfold fits. intros H. apply andb_prop in H. destruct H as [Hu Hle].
  apply negb_true_iff in Hu. apply Z.leb_le in Hle. auto.
Qed.

Section AllocSpec.
Context {cfg : Config}.
Hypothesis size_min : 8 <= DM_MEM_SIZE.
Hypothesis size_max : DM_MEM_SIZE <= 2 ^ 31.

Lemma dm_alloc_fit n pre b post m :
  arena (pre ++ b :: post) m -> 0 < n < 2 ^ 32 ->
  Forall (unfit (round_up4 n)) pre -> fits (round_up4 n) b = true ->
  dm_alloc n m
  = Some (payload_of pre,
          layout (pre ++ auto_zero (round_up4 n)
                           (split_block (round_up4 n) b) ++ post)).
Proof.
  intros Har Hn Hun Hfit.
  destruct (round_up4_range n ltac:(lia)) as [Hk Hk4].
  pose proof Har as (Hm & Hl & Hok).
  unfold dm_alloc. replace (n =? 0) with false by zb_false.
  step (alloc_search_first_fit size_min size_max (round_up4 n) pre b post m
          Har (proj1 Hk) Hk4 Hun Hfit).
  apply Forall_app in Hok. destruct Hok as [_ Hok].
  pose proof (Forall_inv Hok) as [Hpos Hal].
  destruct (fits_size _ _ Hfit) as [_ Hle].
  destruct (split_block_head (round_up4 n) b (conj (proj1 Hk) Hle)
              (fits_case _ _ Hfit Hk4 Hal)) as (b1 & r & Hsp & Hb1).
  rewrite Hsp. cbn [auto_zero].
  destruct (DM_AUTO_ZERO =? 0); cbn [negb].
  - norm. reflexivity.
  - unfold payload_of at 1. cbn [ptr_eqb negb]. fold (payload_of pre).
    cbn [app].
    step (memset_payload pre b1 (r ++ post) (round_up4 n)
            (conj (proj1 Hk) Hb1)).
    reflexivity.
Qed.

Lemma dm_alloc_none n bs m :
  arena bs m -> 0 < n < 2 ^ 32 -> Forall (unfit (round_up4 n)) bs ->
  dm_alloc n m = Some (NULL, m).
Proof.
  intros Har Hn Hun. unfold dm_alloc.
  replace (n =? 0) with false by zb_false.
  step (alloc_search_none size_min size_max _ bs m Har Hun).
  cbn [ptr_eqb negb]. destruct (DM_AUTO_ZERO =? 0); reflexivity.
Qed.
End AllocSpec.

Section Taken.
Context {cfg : Config}.
Hypothesis size_min : 8 <= DM_MEM_SIZE.
Hypothesis size_max : DM_MEM_SIZE <= 2 ^ 31.

(** The block [dm_alloc] hands out, and what it leaves of the block it
    took. *)
Lemma dm_alloc_taken n pre b post m :
  arena (pre ++ b :: post) m -> 0 < n < 2 ^ 32 ->
  Forall (unfit (round_up4 n)) pre -> fits (round_up4 n) b = true ->
  exists b' rest,
    dm_alloc n m
    = Some (payload_of pre, layout (pre ++ (b' :: rest) ++ post))
    /\ blk_used b' = true
    /\ blk_size b' = (if blk_size b =? round_up4 n + header_size
                      then round_up4 n + header_size else round_up4 n)
    /\ len (layout (b' :: rest)) = len (layout [b])
    /\ (0 < round_up4 n -> Forall blk_ok (b' :: rest)).
Proof.
  intros Har Hn Hun Hfit.
  rewrite (dm_alloc_fit size_min size_max n pre b post m Har Hn Hun Hfit).
  destruct (round_up4_range n ltac:(lia)) as [Hk Hk4].
  set (k := round_up4 n) in *.
  destruct (fits_size _ _ Hfit) as [Hfree Hle].
  pose proof Har as (_ & _ & Hok).
  apply Forall_app in Hok. destruct Hok as [_ Hok].
  pose proof (Forall_inv Hok) as [Hpos Hal].
  pose proof (fits_case _ _ Hfit Hk4 Hal) as Hcase.
  unfold split_block.
  destruct (Z.eqb_spec (blk_size b) k) as [E | N];
    [| destruct (Z.eqb_spec (blk_size b) (k + header_size)) as [E4 | N4]];
    cbn [orb auto_zero].
  1, 2: destruct (DM_AUTO_ZERO =? 0); cbn [negb];
    eexists _, []; (split; [reflexivity|]);
    rewrite ?len_layout_cons, ?blk_size_zero_fill by
      (change (blk_size (mark true b)) with (blk_size b); lia);
    change (blk_size (mark true b)) with (blk_size b);
    (split; [reflexivity|]);
    (split; [unfold header_size in *; try lia;
             destruct (Z.eqb_spec (blk_size b) (k + 4)); lia|]);
    (split; [reflexivity|]);
    intros _; repeat constructor;
    rewrite ?blk_size_zero_fill by
      (change (blk_size (mark true b)) with (blk_size b); lia);
    assumption.
  set (b1 := {| blk_used := true;
                blk_data := firstn (Z.to_nat k) (blk_data b) |}).
  set (f := {| blk_used := false;
               blk_data := skipn (Z.to_nat (k + header_size)) (blk_data b) |}).
  assert (Hb1 : blk_size b1 = k).
  { unfold blk_size, b1 in *. cbn [blk_data]. rewrite length_firstn. lia. }
  assert (Hf : blk_size f = blk_size b - k - header_size).
  { unfold blk_size, f, header_size in *. cbn [blk_data].
    rewrite length_skipn. lia. }
  assert (Hfok : blk_ok f).
  { unfold blk_ok. rewrite Hf. unfold header_size in *. split; zdm. }
  destruct (DM_AUTO_ZERO =? 0); cbn [negb];
    eexists _, [f]; (split; [reflexivity|]);
    rewrite ?len_layout_cons, ?blk_size_zero_fill, ?Hb1, ?Hf by lia;
    change (len (layout [])) with 0;
    (split; [reflexivity|]);
    (split; [reflexivity|]);
    (split; [unfold header_size in *; lia|]);
    intros Hk0; repeat constructor;
    rewrite ?blk_size_zero_fill, ?Hb1 by lia; try assumption; try lia;
    exact (proj1 Hfok) || exact (proj2 Hfok).
Qed.
End Taken.

(** ** Payload pointers: [dm_get_size] and [dm_free] *)

Lemma payload_header pre :
  ptr_add (payload_of pre) (- header_size) = WorkMem (len (layout pre)).
Proof. unfold payload_of, ptr_add, header_size. f_equal. lia. Qed.

Lemma dm_get_size_payload pre b post m :
  m = layout (pre ++ b :: post) -> blk_size b < 2 ^ 31 ->
  dm_get_size (payload_of pre) m = Some (blk_size b, m).
Proof.
  intros Hm Hlt. pose proof (blk_size_nonneg b) as H0.
  unfold dm_get_size. rewrite payload_header.
  unfold payload_of at 1. cbn [ptr_eqb].
  rewrite layout_mid in Hm.
  exact (get_d_size_at _ _ _ _ _ m Hm eq_refl (conj H0 Hlt)).
Qed.

Lemma dm_free_payload pre b post m :
  m = layout (pre ++ b :: post) -> blk_size b < 2 ^ 31 ->
  dm_free (payload_of pre) m = Some (tt, layout (pre ++ mark false b :: post)).
Proof.
  intros Hm Hlt. pose proof (blk_size_nonneg b) as H0.
  unfold dm_free. rewrite payload_header.
  unfold payload_of at 1. cbn [ptr_eqb].
  rewrite layout_mid in Hm. rewrite layout_mid.
  exact (set_used_at _ _ _ _ _ m Hm eq_refl (conj H0 Hlt) false).
Qed.

(** * The operations on a consistent pool *)

Section Operations.
Context {cfg : Config}.
Hypothesis size_min : 8 <= DM_MEM_SIZE.
Hypothesis size_max : DM_MEM_SIZE <= 2 ^ 31.

Lemma arena_blk_lt pre b post m :
  arena (pre ++ b :: post) m -> blk_size b < 2 ^ 31.
Proof.
  intros (Hm & Hl & _). apply (blk_size_lt size_max pre b post).
  rewrite <- Hm. exact Hl.
Qed.

Lemma arena_mark u pre b post m :
  arena (pre ++ b :: post) m ->
  arena (pre ++ mark u b :: post) (layout (pre ++ mark u b :: post)).
Proof.
  intros (Hm & Hl & Hok). split; [reflexivity | split].
  - rewrite <- Hl, Hm. rewrite !len_layout_app, !len_layout_cons. reflexivity.
  - apply Forall_app in Hok. destruct Hok as [Hp Hb]. apply Forall_app.
    split; [exact Hp|]. constructor; [exact (Forall_inv Hb)|].
    exact (Forall_inv_tail Hb).
Qed.

(** C2: when [dm_alloc(n)], for [n] from 1 to 4294967292, takes the free
    block [b], the first one that holds [k], the request [n] rounded up to
    a multiple of four ([k] is [n] itself for an aligned request): a block
    larger than [k + header_size] is cut to exactly [k] bytes and followed
    by a new free block of [blk_size b - k - header_size] bytes; a block of
    exactly [k + header_size] or exactly [k] bytes is taken whole and no
    block is created.  The blocks before and after keep their headers,
    payloads and addresses. *)
Theorem dm_alloc_split n pre b post m :
  arena (pre ++ b :: post) m -> 0 < n <= 2 ^ 32 - 4 ->
  Forall (unfit (ceil4 n)) pre -> fits (ceil4 n) b = true ->
  (n mod 4 = 0 -> ceil4 n = n)
  /\ exists b' rest,
    dm_alloc n m
    = Some (payload_of pre, layout (pre ++ (b' :: rest) ++ post))
    /\ blk_used b' = true
    /\ len (layout (b' :: rest)) = len (layout [b])
    /\ (ceil4 n + header_size < blk_size b ->
        blk_size b' = ceil4 n /\
        exists f, rest = [f] /\ blk_used f = false
                  /\ blk_size f = blk_size b - ceil4 n - header_size)
    /\ (blk_size b = ceil4 n + header_size ->
        blk_size b' = blk_size b /\ rest = [])
    /\ (blk_size b = ceil4 n ->
        blk_size b' = ceil4 n /\ rest = []).
Proof.
  intros Har Hn0 Hun Hfit.
  split; [intros Hal4; unfold ceil4; zdm|].
  assert (Hn : 0 < n < 2 ^ 32) by lia.
  rewrite <- (round_up4_ceil n ltac:(lia)) in *.
  rewrite (dm_alloc_fit size_min size_max n pre b post m Har Hn Hun Hfit).
  destruct (round_up4_range n ltac:(lia)) as [Hk Hk4].
  set (k := round_up4 n) in *.
  destruct (fits_size _ _ Hfit) as [Hfree Hle].
  pose proof Har as (_ & _ & Hok).
  apply Forall_app in Hok. destruct Hok as [_ Hok].
  pose proof (Forall_inv Hok) as [Hpos Hal].
  pose proof (fits_case _ _ Hfit Hk4 Hal) as Hcase.
  assert (Hz : forall c, k <= blk_size c ->
               blk_size (zero_fill k c) = blk_size c
               /\ blk_used (zero_fill k c) = blk_used c).
  { intros c Hc. split; [apply blk_size_zero_fill; lia | reflexivity]. }
  unfold split_block.
  destruct (Z.eqb_spec (blk_size b) k) as [E | N];
    [| destruct (Z.eqb_spec (blk_size b) (k + header_size)) as [E4 | N4]];
    cbn [orb auto_zero].
  1, 2: destruct (DM_AUTO_ZERO =? 0); cbn [negb];
    eexists _, []; (split; [reflexivity|]);
    try (destruct (Hz (mark true b) Hle) as [-> ->]);
    change (blk_size (mark true b)) with (blk_size b);
    rewrite ?len_layout_cons, ?blk_size_zero_fill by
      (change (blk_size (mark true b)) with (blk_size b); lia);
    change (blk_size (mark true b)) with (blk_size b);
    unfold header_size in *;
    repeat split; try reflexivity; try lia.
  set (b1 := {| blk_used := true;
                blk_data := firstn (Z.to_nat k) (blk_data b) |}).
  set (f := {| blk_used := false;
               blk_data := skipn (Z.to_nat (k + header_size)) (blk_data b) |}).
  assert (Hb1 : blk_size b1 = k).
  { unfold blk_size, b1 in *. cbn [blk_data]. rewrite length_firstn. lia. }
  assert (Hf : blk_size f = blk_size b - k - header_size).
  { unfold blk_size, f, header_size in *. cbn [blk_data].
    rewrite length_skipn. lia. }
  destruct (DM_AUTO_ZERO =? 0); cbn [negb];
    eexists _, [f]; (split; [reflexivity|]);
    try (destruct (Hz b1 ltac:(lia)) as [-> ->]);
    rewrite ?len_layout_cons, ?blk_size_zero_fill, ?Hb1, ?Hf by lia;
    change (len (layout [])) with 0;
    unfold header_size in *;
    repeat split; try reflexivity; try lia;
    intros; eexists; repeat split; lia.
Qed.
(** C9: [dm_free] on the payload pointer of a used block of the chain
    clears the [used] flag of that block and nothing else: the block keeps
    its size and its payload, every other block keeps header and payload,
    and the chain has the same blocks at the same places (nothing is
    merged). *)
Theorem dm_free_clears_flag_only pre b post m :
  m = layout (pre ++ b :: post) -> len m = DM_MEM_SIZE ->
  blk_used b = true ->
  dm_free (payload_of pre) m
  = Some (tt, layout (pre ++ mark false b :: post))
  /\ blk_used (mark false b) = false
  /\ blk_size (mark false b) = blk_size b
  /\ blk_data (mark false b) = blk_data b
  /\ (arena (pre ++ b :: post) m ->
      arena (pre ++ mark false b :: post)
            (layout (pre ++ mark false b :: post))).
Proof.
  intros Hm Hl Hu.
  assert (Hlt : blk_size b < 2 ^ 31).
  { apply (blk_size_lt size_max pre b post). rewrite <- Hm. exact Hl. }
  split; [exact (dm_free_payload pre b post m Hm Hlt)|].
  repeat split; try reflexivity.
  - pose proof (arena_mark false _ _ _ _ H) as (_ & Hl' & _). exact Hl'.
  - pose proof (arena_mark false _ _ _ _ H) as (_ & _ & Hok). exact Hok.
Qed.

(** C10: [dm_realloc(p, 0)] on the payload pointer of a used block of
    non-zero size returns the address of [zero_mem], which is not [NULL],
    and frees the block; no byte of the pool other than the flag
    changes. *)
Theorem dm_realloc_zero_frees pre b post m :
  m = layout (pre ++ b :: post) -> len m = DM_MEM_SIZE ->
  blk_used b = true -> 0 < blk_size b ->
  dm_get_size (payload_of pre) m = Some (blk_size b, m)
  /\ dm_realloc (payload_of pre) 0 m
     = Some (ZeroMem, layout (pre ++ mark false b :: post))
  /\ ZeroMem <> NULL.
Proof.
  intros Hm Hl Hu Hpos.
  assert (Hlt : blk_size b < 2 ^ 31).
  { apply (blk_size_lt size_max pre b post). rewrite <- Hm. exact Hl. }
  pose proof (dm_get_size_payload pre b post m Hm Hlt) as Hsz.
  split; [exact Hsz|].
  split; [| discriminate].
  unfold dm_realloc, dm_alloc. cbn [Z.eqb]. norm.
  unfold payload_of at 1. cbn [ptr_eqb negb andb]. fold (payload_of pre).
  step Hsz. replace (blk_size b =? 0) with false by zb_false. cbn [negb].
  unfold min. replace (0 <? blk_size b) with true by zb_true.
  unfold memcpy. cbn [Z.eqb]. norm.
  step (dm_free_payload pre b post m Hm Hlt). reflexivity.
Qed.
End Operations.

(** C6: [dm_alloc(0)] always returns the address of [zero_mem] and leaves
    the pool as it is; that address differs from every address inside
    [work_mem]; [dm_free] of it and of [NULL] do nothing, and [dm_get_size]
    of it is 0. *)
Theorem zero_size_handle {cfg : Config} (pl : Placement) (m : list byte) :
  zero_mem_addr pl + 4 <= work_mem_addr pl
  \/ work_mem_addr pl + DM_MEM_SIZE <= zero_mem_addr pl ->
  dm_alloc 0 m = Some (ZeroMem, m)
  /\ (forall o, ZeroMem <> WorkMem o)
  /\ (forall o, 0 <= o < DM_MEM_SIZE ->
                addr_of pl ZeroMem <> addr_of pl (WorkMem o))
  /\ dm_free ZeroMem m = Some (tt, m)
  /\ dm_free NULL m = Some (tt, m)
  /\ dm_get_size ZeroMem m = Some (0, m).
Proof.
  intros Hsep. repeat split; try reflexivity; try discriminate.
  intros o Ho. cbn [addr_of]. lia.
Qed.

Lemma len_layout_aligned bs : Forall blk_ok bs -> len (layout bs) mod 4 = 0.
Proof.
  induction 1 as [| b bs [_ Hb] _ IH]; [reflexivity|].
  rewrite len_layout_cons. unfold header_size. zdm.
Qed.

Section Requests.
Context {cfg : Config}.
Hypothesis size_min : 8 <= DM_MEM_SIZE.
Hypothesis size_max : DM_MEM_SIZE <= 2 ^ 31.

Lemma no_fit_unfit k bs :
  (forall b, In b bs -> blk_used b = false -> blk_size b < k) ->
  Forall (unfit k) bs.
Proof.
  intros H. apply Forall_forall. intros b Hb. unfold unfit, fits.
  destruct (blk_used b) eqn:Hu; [reflexivity|].
  cbn [negb andb]. apply Z.leb_gt. apply H; assumption.
Qed.

(** X21: for a request of 1 to 4294967292 bytes on a consistent pool:
    when every free block is smaller than the request rounded up to a
    multiple of four, [dm_alloc] returns [NULL] and the pool is byte for
    byte as before; [dm_realloc] returns [NULL] as well, whatever pointer
    it is given, and leaves the pool, the block of its argument included,
    as it was. *)
Theorem dm_alloc_exhausted n bs m :
  arena bs m -> 0 < n <= 2 ^ 32 - 4 ->
  (forall b, In b bs -> blk_used b = false -> blk_size b < ceil4 n) ->
  dm_alloc n m = Some (NULL, m)
  /\ forall p, dm_realloc p n m = Some (NULL, m).
Proof.
  intros Har Hn0 Hno.
  assert (Hn : 0 < n < 2 ^ 32) by lia.
  rewrite <- (round_up4_ceil n ltac:(lia)) in Hno.
  pose proof (dm_alloc_none size_min size_max n bs m Har Hn
                (no_fit_unfit _ _ Hno)) as Ha.
  split; [exact Ha|]. intros p. unfold dm_realloc.
  step Ha. reflexivity.
Qed.

(** C4, below the wrap-around of the rounding: a successful [dm_alloc(n)]
    returns a 4-byte aligned pointer, and [dm_get_size] of it is [n]
    rounded up to a multiple of four, or that plus [header_size] when the
    block taken was exactly that large. *)
Theorem dm_alloc_size_aligned (pl : Placement) n bs m :
  work_mem_addr pl mod 4 = 0 ->
  arena bs m -> 0 < n <= 2 ^ 32 - 4 ->
  dm_alloc n m = Some (NULL, m)
  \/ exists pre b post m',
       bs = pre ++ b :: post
       /\ dm_alloc n m = Some (payload_of pre, m')
       /\ payload_of pre <> NULL
       /\ addr_of pl (payload_of pre) mod 4 = 0
       /\ dm_get_size (payload_of pre) m'
          = Some (if blk_size b =? ceil4 n + header_size
                  then ceil4 n + header_size else ceil4 n, m').
Proof.
  intros Hbase Har Hn.
  assert (Hn' : 0 < n < 2 ^ 32) by lia.
  pose proof (round_up4_ceil n ltac:(lia)) as Hceil.
  destruct (fit_or_not (round_up4 n) bs)
    as [Hnone | (pre & b & post & -> & Hun & Hfit)].
  - left. exact (dm_alloc_none size_min size_max n bs m Har Hn' Hnone).
  - right.
    destruct (dm_alloc_taken size_min size_max n pre b post m Har Hn' Hun Hfit)
      as (b' & rest & Ha & Hu' & Hsz & Hlen & _).
    exists pre, b, post, (layout (pre ++ (b' :: rest) ++ post)).
    split; [reflexivity|]. split; [exact Ha|]. split; [discriminate|].
    pose proof Har as (_ & _ & Hok).
    apply Forall_app in Hok. destruct Hok as [Hpre Hb].
    split.
    + unfold payload_of, addr_of, header_size.
      pose proof (len_layout_aligned pre Hpre). zdm.
    + destruct (fits_size _ _ Hfit) as [_ Hle].
      rewrite Hceil in Hsz. rewrite <- Hsz.
      apply (dm_get_size_payload pre b' (rest ++ post)); [reflexivity|].
      rewrite Hsz. pose proof (arena_blk_lt size_max _ _ _ _ Har).
      rewrite Hceil in Hle.
      destruct (Z.eqb_spec (blk_size b) (ceil4 n + header_size)); lia.
Qed.
End Requests.

(** ** Statistics of a chain *)


Lemma count_free_snoc pre b :
  count_free (pre ++ [b])
  = count_free pre + (if blk_used b then 0 else 1).
Proof.
  unfold count_free. rewrite filter_app, length_app. cbn [filter].
  destruct (blk_used b); cbn [negb length]; lia.
Qed.

Lemma count_used_snoc pre b :
  count_used (pre ++ [b])
  = count_used pre + (if blk_used b then 1 else 0).
Proof.
  unfold count_used. rewrite filter_app, length_app. cbn [filter].
  destruct (blk_used b); cbn [length]; lia.
Qed.

Lemma free_sizes_snoc pre b :
  free_sizes (pre ++ [b])
  = free_sizes pre ++ (if blk_used b then [] else [blk_size b]).
Proof.
  unfold free_sizes. rewrite filter_app, map_app. cbn [filter].
  destruct (blk_used b); reflexivity.
Qed.

Lemma sum_app l1 l2 :
  fold_right Z.add 0 (l1 ++ l2) = fold_right Z.add 0 l1 + fold_right Z.add 0 l2.
Proof. induction l1 as [| x l1 IH]; cbn [fold_right app]; lia. Qed.

Lemma max_app l1 l2 :
  fold_right Z.max 0 (l1 ++ l2)
  = Z.max (fold_right Z.max 0 l1) (fold_right Z.max 0 l2).
Proof.
  induction l1 as [| x l1 IH]; cbn [fold_right app].
  - assert (H : 0 <= fold_right Z.max 0 l2).
    { induction l2; cbn [fold_right]; lia. }
    lia.
  - rewrite IH. lia.
Qed.

Lemma total_free_snoc pre b :
  total_free (pre ++ [b])
  = total_free pre + (if blk_used b then 0 else blk_size b).
Proof.
  unfold total_free. rewrite free_sizes_snoc, sum_app.
  destruct (blk_used b); cbn [fold_right]; lia.
Qed.

Lemma largest_free_snoc pre b :
  largest_free (pre ++ [b])
  = Z.max (largest_free pre) (if blk_used b then 0 else blk_size b).
Proof.
  unfold largest_free. rewrite free_sizes_snoc, max_app.
  pose proof (blk_size_nonneg b).
  destruct (blk_used b); cbn [fold_right]; lia.
Qed.

Lemma stats_bounds bs :
  0 <= count_free bs /\ 0 <= count_used bs
  /\ 4 * (count_free bs + count_used bs) + total_free bs <= len (layout bs)
  /\ 0 <= largest_free bs <= total_free bs.
Proof.
  induction bs as [| b bs IH] using rev_ind.
  - unfold count_free, count_used, total_free, largest_free, len. simpl. lia.
  - rewrite count_free_snoc, count_used_snoc, total_free_snoc,
      largest_free_snoc, len_layout_app, len_layout_cons.
    change (len (layout [])) with 0.
    pose proof (blk_size_nonneg b). unfold header_size.
    destruct (blk_used b); lia.
Qed.

Section MonitorProof.
Context {cfg : Config}.
Hypothesis size_max : DM_MEM_SIZE <= 2 ^ 31.

Lemma wrap32_small z : 0 <= z < 2 ^ 32 -> wrap32 z = z.
Proof. intros H. unfold wrap32. apply Z.mod_small. exact H. Qed.

Lemma monitor_step_block pre b post m :
  m = layout (pre ++ b :: post) -> len m = DM_MEM_SIZE ->
  monitor_step (WorkMem (len (layout pre))) (stats_of pre) m
  = Some (stats_of (pre ++ [b]), m).
Proof.
  intros Hm Hl. pose proof (blk_size_nonneg b) as H0.
  assert (Hlt : blk_size b < 2 ^ 31).
  { apply (blk_size_lt size_max pre b post). rewrite <- Hm. exact Hl. }
  pose proof (stats_bounds pre) as (Hcf & Hcu & Hsum & Hbig).
  assert (Hpre : len (layout pre) + header_size + blk_size b <= DM_MEM_SIZE).
  { rewrite <- Hl, Hm, len_layout_app, len_layout_cons.
    pose proof (len_nonneg (layout post)). lia. }
  pose proof Hm as Hm'. rewrite layout_mid in Hm'.
  unfold monitor_step, stats_of.
  rewrite count_free_snoc, count_used_snoc, total_free_snoc, largest_free_snoc.
  step (get_used_at _ _ _ _ _ m Hm' eq_refl (conj H0 Hlt)).
  destruct (blk_used b); cbn [Z.b2z Z.eqb cnt_free cnt_used size_free
                               size_free_big pct_frag].
  - unfold ret. rewrite wrap32_small by (unfold header_size in *; lia).
    rewrite !Z.add_0_r. rewrite Z.max_l by lia. reflexivity.
  - step (get_d_size_at _ _ _ _ _ m Hm' eq_refl (conj H0 Hlt)).
    step (get_d_size_at _ _ _ _ _ m Hm' eq_refl (conj H0 Hlt)).
    cbn [cnt_free cnt_used size_free size_free_big pct_frag].
    rewrite !wrap32_small by (unfold header_size in *; lia).
    rewrite Z.add_0_r.
    destruct (Z.gtb_spec (blk_size b) (largest_free pre)) as [Hgt | Hle].
    + step (get_d_size_at _ _ _ _ _ m Hm' eq_refl (conj H0 Hlt)).
      unfold ret. rewrite Z.max_r by lia. reflexivity.
    + unfold ret. rewrite Z.max_l by lia. reflexivity.
Qed.

Lemma monitor_loop_chain : forall post pre b m n,
  m = layout (pre ++ b :: post) -> len m = DM_MEM_SIZE ->
  Forall blk_ok post -> (S (length post) < n)%nat ->
  monitor_loop n (WorkMem (len (layout pre))) (stats_of pre) m
  = Some (stats_of (pre ++ b :: post), m).
Proof.
  induction post as [| c post IH]; intros pre b m n Hm Hl Hok Hn.
  - destruct n as [| [| n]]; try (cbn [length] in Hn; lia).
    cbn [monitor_loop ptr_eqb negb].
    step (monitor_step_block pre b [] m Hm Hl).
    step (next_last size_max pre b m Hm Hl).
    reflexivity.
  - destruct n as [| n]; [lia|].
    cbn [monitor_loop ptr_eqb negb].
    step (monitor_step_block pre b (c :: post) m Hm Hl).
    pose proof (Forall_inv Hok) as [Hpos _].
    step (next_inner size_max pre b c post m Hm Hl Hpos).
    rewrite (IH (pre ++ [b]) c m n).
    + rewrite snoc_cons. reflexivity.
    + rewrite snoc_cons. exact Hm.
    + exact Hl.
    + exact (Forall_inv_tail Hok).
    + cbn [length] in Hn. lia.
Qed.
End MonitorProof.

Section MonitorSpec.
Context {cfg : Config}.
Hypothesis size_min : 8 <= DM_MEM_SIZE.
Hypothesis size_small : 100 * DM_MEM_SIZE < 2 ^ 32.

(** X20: on a consistent pool of at most 42949672 bytes
    ([100 * DM_MEM_SIZE < 2 ^ 32]) with at least one free byte,
    [dm_monitor] reports the number of free blocks, the number of used
    blocks, the sum of the free payload sizes and the largest free payload
    size of the chain, and the percentage
    [100 - 100 * largest_free / total_free]; the pool is unchanged. *)
Theorem dm_monitor_stats bs m :
  arena bs m -> 0 < total_free bs ->
  dm_monitor m
  = Some ({| cnt_free := count_free bs;
             cnt_used := count_used bs;
             size_free := total_free bs;
             size_free_big := largest_free bs;
             pct_frag := 100 - 100 * largest_free bs / total_free bs |},
          m).
Proof.
  intros Har Hfree.
  assert (size_max : DM_MEM_SIZE <= 2 ^ 31) by lia.
  pose proof (arena_fuel _ _ Har) as Hfuel.
  destruct Har as (Hm & Hl & Hok).
  destruct bs as [| b post].
  { unfold total_free in Hfree. simpl in Hfree. lia. }
  unfold dm_monitor. unfold ent_get_next at 1. norm.
  change mon_zero with (stats_of []).
  change (WorkMem 0) with (WorkMem (len (layout []))).
  step (monitor_loop_chain size_max post [] b m max_rounds Hm Hl
          (Forall_inv_tail Hok) ltac:(cbn [length] in Hfuel; lia)).
  cbn [app stats_of size_free size_free_big cnt_free cnt_used].
  replace (total_free (b :: post) =? 0) with false by zb_false.
  pose proof (stats_bounds (b :: post)) as (Hcf & Hcu & Hsum & Hbig).
  rewrite <- Hm, Hl in Hsum.
  rewrite wrap32_small by lia.
  unfold ret. rewrite (Z.mul_comm (largest_free (b :: post)) 100).
  reflexivity.
Qed.
End MonitorSpec.

(** ** The walk over a consistent pool *)

Section Walk.
Context {cfg : Config}.
Hypothesis size_min : 8 <= DM_MEM_SIZE.
Hypothesis size_max : DM_MEM_SIZE <= 2 ^ 31.

Lemma walk_chain : forall post pre b m n,
  m = layout (pre ++ b :: post) -> len m = DM_MEM_SIZE ->
  Forall blk_ok post -> (S (length post) < n)%nat ->
  walk n (WorkMem (len (layout pre))) m
  = Some (entries_from (len (layout pre)) (b :: post), m).
Proof.
  induction post as [| c post IH]; intros pre b m n Hm Hl Hok Hn.
  - destruct n as [| [| n]]; try (cbn [length] in Hn; lia).
    pose proof (blk_size_nonneg b) as H0.
    assert (Hlt : blk_size b < 2 ^ 31).
    { apply (blk_size_lt size_max pre b []). rewrite <- Hm. exact Hl. }
    pose proof Hm as Hm'. rewrite layout_mid in Hm'.
    cbn [walk ptr_eqb].
    step (get_used_at _ _ _ _ _ m Hm' eq_refl (conj H0 Hlt)).
    step (get_d_size_at _ _ _ _ _ m Hm' eq_refl (conj H0 Hlt)).
    step (next_last size_max pre b m Hm Hl).
    norm. reflexivity.
  - destruct n as [| n]; [lia|].
    pose proof (blk_size_nonneg b) as H0.
    assert (Hlt : blk_size b < 2 ^ 31).
    { apply (blk_size_lt size_max pre b (c :: post)). rewrite <- Hm. exact Hl. }
    pose proof Hm as Hm'. rewrite layout_mid in Hm'.
    cbn [walk ptr_eqb].
    step (get_used_at _ _ _ _ _ m Hm' eq_refl (conj H0 Hlt)).
    step (get_d_size_at _ _ _ _ _ m Hm' eq_refl (conj H0 Hlt)).
    pose proof (Forall_inv Hok) as [Hpos _].
    step (next_inner size_max pre b c post m Hm Hl Hpos).
    rewrite (bind_some _ _ _ _ _ (IH (pre ++ [b]) c m n
               ltac:(rewrite snoc_cons; exact Hm) Hl (Forall_inv_tail Hok)
               ltac:(cbn [length] in Hn; lia))).
    unfold ret. cbn [entries_from].
    rewrite len_layout_app, len_layout_cons.
    change (len (layout [])) with 0.
    replace (len (layout pre) + (header_size + blk_size b + 0))
      with (len (layout pre) + header_size + blk_size b) by lia.
    reflexivity.
Qed.

Lemma covers_entries : forall bs o,
  covers o (entries_from o bs) = (o + len (layout bs) =? DM_MEM_SIZE).
Proof using Type.
  clear size_min size_max.
  induction bs as [| b bs IH]; intros o.
  - cbn [entries_from covers]. change (len (layout [])) with 0.
    rewrite Z.add_0_r. reflexivity.
  - cbn [entries_from covers]. rewrite Z.eqb_refl, IH, len_layout_cons.
    cbn [andb]. f_equal. lia.
Qed.

(** A consistent pool is tiled: the walk of [ent_get_next] meets exactly the
    blocks of the chain and ends at the end of [work_mem]. *)
Lemma arena_tiles bs m :
  arena bs m ->
  chain m = Some (entries_from 0 bs, m) /\ tiles m = true.
Proof.
  intros Har. pose proof (arena_fuel _ _ Har) as Hfuel.
  destruct Har as (Hm & Hl & Hok).
  destruct bs as [| b post].
  - rewrite Hm in Hl. change (len (layout [])) with 0 in Hl. lia.
  - assert (Hc : chain m = Some (entries_from 0 (b :: post), m)).
    { unfold chain. unfold ent_get_next at 1. norm.
      change (WorkMem 0) with (WorkMem (len (layout []))).
      apply (walk_chain post [] b m max_rounds Hm Hl (Forall_inv_tail Hok)).
      cbn [length] in Hfuel. lia. }
    split; [exact Hc|]. unfold tiles. rewrite Hc.
    cbn [entries_from]. 
    change (covers 0 (entries_from 0 (b :: post)) = true).
    rewrite covers_entries, <- Hm, Hl. apply Z.eqb_refl.
Qed.
End Walk.

(** ** Copying between two blocks *)

Lemma memcpy_fwd P src Q dst R c :
  len src = c -> len dst = c -> 0 < c ->
  memcpy (WorkMem (len (P ++ src ++ Q))) (WorkMem (len P)) c
    (P ++ src ++ Q ++ dst ++ R)
  = Some (tt, P ++ src ++ Q ++ src ++ R).
Proof.
  intros Hs Hd Hc.
  assert (E1 : P ++ src ++ Q ++ dst ++ R = (P ++ src ++ Q) ++ dst ++ R)
    by (rewrite <- !app_assoc; reflexivity).
  assert (B1 : in_bounds (P ++ src ++ Q ++ dst ++ R) (len (P ++ src ++ Q)) c = true)
    by (rewrite E1; apply in_bounds_mid; auto).
  assert (B2 : in_bounds (P ++ src ++ Q ++ dst ++ R) (len P) c = true)
    by (apply in_bounds_mid; auto).
  assert (Rd : read_bytes (P ++ src ++ Q ++ dst ++ R) (len P) c = src)
    by (apply read_bytes_mid; auto).
  assert (Wr : write_bytes (P ++ src ++ Q ++ dst ++ R) (len (P ++ src ++ Q)) src
               = P ++ src ++ Q ++ src ++ R).
  { rewrite E1, write_bytes_mid by (auto; unfold len in *; lia).
    rewrite <- !app_assoc. reflexivity. }
  unfold memcpy. replace (c =? 0) with false by zb_false.
  rewrite B1, B2, Rd, Wr.
  replace (len P + c <=? len (P ++ src ++ Q)) with true
    by (rewrite !len_app; pose proof (len_nonneg Q); zb_true).
  rewrite orb_true_r. reflexivity.
Qed.

Lemma memcpy_bwd P dst Q src R c :
  len src = c -> len dst = c -> 0 < c ->
  memcpy (WorkMem (len P)) (WorkMem (len (P ++ dst ++ Q))) c
    (P ++ dst ++ Q ++ src ++ R)
  = Some (tt, P ++ src ++ Q ++ src ++ R).
Proof.
  intros Hs Hd Hc.
  assert (E1 : P ++ dst ++ Q ++ src ++ R = (P ++ dst ++ Q) ++ src ++ R)
    by (rewrite <- !app_assoc; reflexivity).
  assert (B1 : in_bounds (P ++ dst ++ Q ++ src ++ R) (len P) c = true)
    by (apply in_bounds_mid; auto).
  assert (B2 : in_bounds (P ++ dst ++ Q ++ src ++ R) (len (P ++ dst ++ Q)) c = true)
    by (rewrite E1; apply in_bounds_mid; auto).
  assert (Rd : read_bytes (P ++ dst ++ Q ++ src ++ R) (len (P ++ dst ++ Q)) c = src)
    by (rewrite E1; apply read_bytes_mid; auto).
  assert (Wr : write_bytes (P ++ dst ++ Q ++ src ++ R) (len P) src
               = P ++ src ++ Q ++ src ++ R).
  { apply write_bytes_mid; auto. unfold len in *; lia. }
  unfold memcpy. replace (c =? 0) with false by zb_false.
  rewrite B1, B2, Rd, Wr.
  replace (len P + c <=? len (P ++ dst ++ Q)) with true
    by (rewrite !len_app; pose proof (len_nonneg Q); zb_true).
  reflexivity.
Qed.

Lemma layout_two X s Y d Z :
  layout (X ++ s :: Y ++ d :: Z)
  = layout X ++ hdr_bytes (blk_used s) (blk_size s) ++ blk_data s
    ++ layout Y ++ hdr_bytes (blk_used d) (blk_size d) ++ blk_data d
    ++ layout Z.
Proof.
  rewrite layout_mid, layout_app, layout_cons. unfold blk_bytes.
  rewrite <- !app_assoc. reflexivity.
Qed.

Lemma blk_size_copy_into c s d :
  0 <= c -> c <= blk_size s -> c <= blk_size d ->
  blk_size (copy_into c s d) = blk_size d.
Proof.
  intros H0 Hs Hd. unfold blk_size, copy_into in *. cbn [blk_data].
  rewrite length_app, length_firstn, length_skipn. lia.
Qed.

Section CopyBlocks.
Variables (X Y T : list block) (s d : block) (c : Z).
Hypothesis Hc : 0 < c.
Hypothesis Hs : c <= blk_size s.
Hypothesis Hd : c <= blk_size d.

Lemma copy_parts :
  blk_data s = firstn (Z.to_nat c) (blk_data s) ++ skipn (Z.to_nat c) (blk_data s)
  /\ blk_data d
     = firstn (Z.to_nat c) (blk_data d) ++ skipn (Z.to_nat c) (blk_data d)
  /\ len (firstn (Z.to_nat c) (blk_data s)) = c
  /\ len (firstn (Z.to_nat c) (blk_data d)) = c.
Proof.
  unfold len, blk_size in *.
  rewrite !firstn_skipn, !length_firstn. repeat split; lia.
Qed.

Lemma memcpy_blocks_fwd :
  memcpy (payload_of (X ++ s :: Y)) (payload_of X) c
    (layout (X ++ s :: Y ++ d :: T))
  = Some (tt, layout (X ++ s :: Y ++ copy_into c s d :: T)).
Proof.
  destruct copy_parts as (Es & Ed & Ls & Ld).
  set (s1 := firstn (Z.to_nat c) (blk_data s)) in *.
  set (s2 := skipn (Z.to_nat c) (blk_data s)) in *.
  set (d1 := firstn (Z.to_nat c) (blk_data d)) in *.
  set (d2 := skipn (Z.to_nat c) (blk_data d)) in *.
  rewrite !layout_two.
  rewrite blk_size_copy_into by lia.
  cbn [copy_into blk_used blk_data]. fold s1 d2.
  set (hs := hdr_bytes (blk_used s) (blk_size s)).
  set (hd := hdr_bytes (blk_used d) (blk_size d)).
  replace (payload_of X) with (WorkMem (len (layout X ++ hs)))
    by (unfold payload_of, hs; rewrite len_app, len_hdr_bytes; reflexivity).
  replace (payload_of (X ++ s :: Y))
    with (WorkMem (len ((layout X ++ hs) ++ s1 ++ (s2 ++ layout Y ++ hd)))).
  2:{ unfold payload_of. f_equal.
      rewrite len_layout_app, len_layout_cons, !len_app.
      unfold hs, hd. rewrite !len_hdr_bytes.
      unfold blk_size. rewrite Es. fold (len (s1 ++ s2)). rewrite len_app.
      unfold header_size. lia. }
  replace (layout X ++ hs ++ blk_data s ++ layout Y ++ hd ++ blk_data d
           ++ layout T)
    with ((layout X ++ hs) ++ s1 ++ (s2 ++ layout Y ++ hd) ++ d1
          ++ (d2 ++ layout T))
    by (rewrite Es, Ed, <- !app_assoc; reflexivity).
  rewrite (memcpy_fwd _ s1 _ d1 _ c Ls Ld Hc).
  rewrite Es, <- !app_assoc. reflexivity.
Qed.

Lemma memcpy_blocks_bwd :
  memcpy (payload_of X) (payload_of (X ++ d :: Y)) c
    (layout (X ++ d :: Y ++ s :: T))
  = Some (tt, layout (X ++ copy_into c s d :: Y ++ s :: T)).
Proof.
  destruct copy_parts as (Es & Ed & Ls & Ld).
  set (s1 := firstn (Z.to_nat c) (blk_data s)) in *.
  set (s2 := skipn (Z.to_nat c) (blk_data s)) in *.
  set (d1 := firstn (Z.to_nat c) (blk_data d)) in *.
  set (d2 := skipn (Z.to_nat c) (blk_data d)) in *.
  rewrite !layout_two.
  rewrite blk_size_copy_into by lia.
  cbn [copy_into blk_used blk_data]. fold s1 d2.
  set (hs := hdr_bytes (blk_used s) (blk_size s)).
  set (hd := hdr_bytes (blk_used d) (blk_size d)).
  replace (payload_of X) with (WorkMem (len (layout X ++ hd)))
    by (unfold payload_of, hd; rewrite len_app, len_hdr_bytes; reflexivity).
  replace (payload_of (X ++ d :: Y))
    with (WorkMem (len ((layout X ++ hd) ++ d1 ++ (d2 ++ layout Y ++ hs)))).
  2:{ unfold payload_of. f_equal.
      rewrite len_layout_app, len_layout_cons, !len_app.
      unfold hs, hd. rewrite !len_hdr_bytes.
      unfold blk_size. rewrite Ed. fold (len (d1 ++ d2)). rewrite len_app.
      unfold header_size. lia. }
  replace (layout X ++ hd ++ blk_data d ++ layout Y ++ hs ++ blk_data s
           ++ layout T)
    with ((layout X ++ hd) ++ d1 ++ (d2 ++ layout Y ++ hs) ++ s1
          ++ (s2 ++ layout T))
    by (rewrite Es, Ed, <- !app_assoc; reflexivity).
  rewrite (memcpy_bwd _ d1 _ s1 _ c Ls Ld Hc).
  rewrite Es, <- !app_assoc. reflexivity.
Qed.
End CopyBlocks.

(** ** [dm_realloc] *)

Lemma payload_of_same_len a b :
  len (layout a) = len (layout b) -> payload_of a = payload_of b.
Proof. intros H. unfold payload_of. rewrite H. reflexivity. Qed.

Lemma two_positions {A} (x y : A) : forall l1 l2 l3 l4,
  l1 ++ x :: l2 = l3 ++ y :: l4 -> x <> y ->
  (exists l, l3 = l1 ++ x :: l /\ l2 = l ++ y :: l4)
  \/ (exists l, l1 = l3 ++ y :: l /\ l4 = l ++ x :: l2).
Proof.
  induction l1 as [| a l1 IH]; intros l2 l3 l4 H Hne.
  - destruct l3 as [| b l3]; cbn [app] in H.
    + injection H as Hxy _. contradiction.
    + injection H as -> ->. left. exists l3. split; reflexivity.
  - destruct l3 as [| b l3]; cbn [app] in H.
    + injection H as -> <-. right. exists l1. split; reflexivity.
    + injection H as -> H.
      destruct (IH _ _ _ H Hne) as [(l & -> & ->) | (l & -> & ->)].
      * left. exists l. split; reflexivity.
      * right. exists l. split; reflexivity.
Qed.

Lemma min_spec a b : min a b = Z.min a b.
Proof. unfold min. destruct (Z.ltb_spec a b); lia. Qed.

Section ReallocCopy.
Variables (n : Z) (pb qb : block).
Hypothesis Hn : 0 < n.
Hypothesis Hp : 0 < blk_size pb < 2 ^ 31.
Hypothesis Hq : n <= blk_size qb < 2 ^ 31.

Local Abbreviation c := (min n (blk_size pb)).

Lemma copy_len : 0 < c /\ c <= blk_size pb /\ c <= blk_size qb.
Proof. rewrite min_spec. lia. Qed.

(** The block of [data_p] lies before the new block. *)
Lemma realloc_copy_fwd X Y T :
  (old_size <- dm_get_size (payload_of X) ;;
   if negb (old_size =? 0) then
     memcpy (payload_of (X ++ pb :: Y)) (payload_of X) (min n old_size) ;;
     dm_free (payload_of X)
   else ret tt) (layout (X ++ pb :: Y ++ qb :: T))
  = Some (tt, layout (X ++ mark false pb :: Y ++ copy_into c pb qb :: T)).
Proof.
  destruct copy_len as (Hc0 & Hcp & Hcq).
  step (dm_get_size_payload X pb (Y ++ qb :: T) _ eq_refl (proj2 Hp)).
  replace (blk_size pb =? 0) with false by zb_false. cbn [negb].
  step (memcpy_blocks_fwd X Y T pb qb c Hc0 Hcp Hcq).
  apply (dm_free_payload X pb (Y ++ copy_into c pb qb :: T) _ eq_refl (proj2 Hp)).
Qed.

(** The block of [data_p] lies after the new block. *)
Lemma realloc_copy_bwd X Y T :
  (old_size <- dm_get_size (payload_of (X ++ qb :: Y)) ;;
   if negb (old_size =? 0) then
     memcpy (payload_of X) (payload_of (X ++ qb :: Y)) (min n old_size) ;;
     dm_free (payload_of (X ++ qb :: Y))
   else ret tt) (layout (X ++ qb :: Y ++ pb :: T))
  = Some (tt, layout (X ++ copy_into c pb qb :: Y ++ mark false pb :: T)).
Proof.
  destruct copy_len as (Hc0 & Hcp & Hcq).
  assert (E : X ++ qb :: Y ++ pb :: T = (X ++ qb :: Y) ++ pb :: T)
    by (rewrite <- app_assoc; reflexivity).
  step (dm_get_size_payload (X ++ qb :: Y) pb T _ (f_equal layout E) (proj2 Hp)).
  replace (blk_size pb =? 0) with false by zb_false. cbn [negb].
  step (memcpy_blocks_bwd X Y T pb qb c Hc0 Hcp Hcq).
  assert (Hl : payload_of (X ++ qb :: Y) = payload_of (X ++ copy_into c pb qb :: Y)).
  { apply payload_of_same_len.
    rewrite !len_layout_app, !len_layout_cons.
    rewrite blk_size_copy_into by lia. reflexivity. }
  rewrite Hl.
  assert (E' : X ++ copy_into c pb qb :: Y ++ pb :: T
               = (X ++ copy_into c pb qb :: Y) ++ pb :: T)
    by (rewrite <- app_assoc; reflexivity).
  rewrite (dm_free_payload (X ++ copy_into c pb qb :: Y) pb T _
             (f_equal layout E') (proj2 Hp)).
  rewrite <- app_assoc. reflexivity.
Qed.
End ReallocCopy.

Lemma blk_ok_same b b' : blk_size b' = blk_size b -> blk_ok b -> blk_ok b'.
Proof. unfold blk_ok. intros ->. auto. Qed.

Ltac step_whole H := rewrite (bind_some _ _ _ _ _ H); cbv beta zeta.
Ltac list_eq :=
  repeat (rewrite <- app_assoc || rewrite <- app_comm_cons); reflexivity.
Ltac lenl := repeat (rewrite len_layout_app || rewrite len_layout_cons).
Ltac forall_split :=
  repeat (rewrite Forall_app in * || rewrite Forall_cons_iff in * ).

Section Realloc.
Context {cfg : Config}.
Hypothesis size_min : 8 <= DM_MEM_SIZE.
Hypothesis size_max : DM_MEM_SIZE <= 2 ^ 31.

(** [dm_realloc] of a used block to a non-zero size below the wrap-around:
    either nothing fits and nothing changes, or a new used block holds the
    first [min n old_size] bytes of the old payload and the old block is
    free; the pool stays consistent. *)
Lemma dm_realloc_moves A pb B n m :
  arena (A ++ pb :: B) m -> blk_used pb = true -> 0 < n <= 2 ^ 32 - 4 ->
  dm_realloc (payload_of A) n m = Some (NULL, m)
  \/ exists pre qb post A' B',
       dm_realloc (payload_of A) n m
       = Some (payload_of pre, layout (pre ++ qb :: post))
       /\ arena (pre ++ qb :: post) (layout (pre ++ qb :: post))
       /\ blk_used qb = true
       /\ firstn (Z.to_nat (min n (blk_size pb))) (blk_data qb)
          = firstn (Z.to_nat (min n (blk_size pb))) (blk_data pb)
       /\ pre ++ qb :: post = A' ++ mark false pb :: B'
       /\ payload_of A' = payload_of A.
Proof.
  intros Har Hu Hn.
  assert (Hn' : 0 < n < 2 ^ 32) by lia.
  pose proof (round_up4_ceil n ltac:(lia)) as Hceil.
  pose proof (ceil4_spec n) as (Hcn & _).
  destruct (fit_or_not (round_up4 n) (A ++ pb :: B))
    as [Hnone | (pre & b & post & Heq & Hun & Hfit)].
  { left. unfold dm_realloc.
    step (dm_alloc_none size_min size_max n _ m Har Hn' Hnone). reflexivity. }
  right.
  pose proof (arena_blk_lt size_max _ _ _ _ Har) as Hplt.
  pose proof Har as (Hm & Hl & Hok).
  assert (Hpok : blk_ok pb) by (forall_split; tauto).
  rewrite Heq in Har.
  pose proof (arena_blk_lt size_max _ _ _ _ Har) as Hblt.
  destruct (dm_alloc_taken size_min size_max n pre b post m Har Hn' Hun Hfit)
    as (b' & rest & Ha & Hu' & Hsz & Hlen & Hrest).
  specialize (Hrest ltac:(lia)).
  destruct (fits_size _ _ Hfit) as [Hfree Hle].
  assert (Hne : pb <> b) by congruence.
  assert (Hq : n <= blk_size b' < 2 ^ 31).
  { rewrite Hsz. unfold header_size in *.
    destruct (Z.eqb_spec (blk_size b) (round_up4 n + 4)); lia. }
  assert (Hp : 0 < blk_size pb < 2 ^ 31) by (destruct Hpok; lia).
  set (c := min n (blk_size pb)).
  pose proof (copy_len n pb b' (proj1 Hn) Hp Hq) as (Hc0 & Hcp & Hcq). fold c in Hc0, Hcp, Hcq.
  assert (Hcopy : blk_size (copy_into c pb b') = blk_size b')
    by (apply blk_size_copy_into; lia).
  assert (Hdata : firstn (Z.to_nat c) (blk_data (copy_into c pb b'))
                  = firstn (Z.to_nat c) (blk_data pb)).
  { cbn [copy_into blk_data]. rewrite firstn_app.
    rewrite length_firstn. unfold blk_size in Hcp.
    replace (Z.to_nat c - Init.Nat.min (Z.to_nat c) (length (blk_data pb)))%nat
      with 0%nat by lia.
    cbn [firstn]. rewrite app_nil_r, firstn_firstn, Nat.min_id. reflexivity. }
  assert (Hb'ok : blk_ok (copy_into c pb b')).
  { apply (blk_ok_same b'); [exact Hcopy | exact (Forall_inv Hrest)]. }
  assert (Hpfree : blk_ok (mark false pb)) by exact Hpok.
  rewrite len_layout_cons in Hlen. rewrite len_layout_cons in Hlen.
  change (len (layout [])) with 0 in Hlen.
  rewrite Hm, Heq in Hl.
  unfold dm_realloc. step Ha.
  unfold payload_of at 1 2. cbn [ptr_eqb negb andb].
  fold (payload_of pre) (payload_of A).
  destruct (two_positions pb b A B pre post Heq Hne)
    as [(Y & -> & ->) | (Y & -> & ->)].
  - (* the old block comes first *)
    replace ((A ++ pb :: Y) ++ (b' :: rest) ++ post)
      with (A ++ pb :: Y ++ b' :: rest ++ post)
      by (rewrite <- !app_assoc; reflexivity).
    step_whole (realloc_copy_fwd n pb b' (proj1 Hn) Hp Hq A Y (rest ++ post)).
    fold c.
    exists (A ++ mark false pb :: Y), (copy_into c pb b'), (rest ++ post),
      A, (Y ++ copy_into c pb b' :: rest ++ post).
    replace ((A ++ mark false pb :: Y) ++ copy_into c pb b' :: rest ++ post)
      with (A ++ mark false pb :: Y ++ copy_into c pb b' :: rest ++ post)
      by (rewrite <- !app_assoc; reflexivity).
    split.
    { unfold ret. f_equal. f_equal. apply payload_of_same_len.
      lenl. reflexivity. }
    split.
    { split; [reflexivity | split].
      - rewrite <- Hl. lenl. rewrite Hcopy.
        change (blk_size (mark false pb)) with (blk_size pb). lia.
      - clear - Hok Hrest Hb'ok Hpfree. forall_split. tauto. }
    split; [exact Hu'|]. split; [exact Hdata|]. split; reflexivity.
  - (* the new block comes first *)
    replace (pre ++ (b' :: rest) ++ Y ++ pb :: B)
      with (pre ++ b' :: (rest ++ Y) ++ pb :: B)
      by (rewrite <- !app_assoc; reflexivity).
    assert (Hpay : payload_of (pre ++ b :: Y) = payload_of (pre ++ b' :: rest ++ Y)).
    { apply payload_of_same_len. lenl. lia. }
    rewrite Hpay.
    step_whole (realloc_copy_bwd n pb b' (proj1 Hn) Hp Hq pre (rest ++ Y) B).
    fold c.
    exists pre, (copy_into c pb b'), ((rest ++ Y) ++ mark false pb :: B),
      (pre ++ copy_into c pb b' :: rest ++ Y), B.
    split; [reflexivity|].
    split.
    { split; [reflexivity | split].
      - rewrite <- Hl. lenl. rewrite Hcopy.
        change (blk_size (mark false pb)) with (blk_size pb). lia.
      - clear - Hok Hrest Hb'ok Hpfree. forall_split. tauto. }
    split; [exact Hu'|]. split; [exact Hdata|].
    split; [list_eq|].
    apply payload_of_same_len. lenl. rewrite Hcopy. reflexivity.
Qed.
End Realloc.

(** ** Sequences of calls *)

Lemma read_only_ret {A} (a : A) : read_only (ret a).
Proof. intros m a' m' H. injection H as _ <-. reflexivity. Qed.

Lemma read_only_fail {A} : read_only (@fail A).
Proof. intros m a m' H. discriminate. Qed.

Lemma read_only_bind {A B} (c : M A) (k : A -> M B) :
  read_only c -> (forall a, read_only (k a)) -> read_only (bind c k).
Proof.
  intros Hc Hk m b m' H. unfold bind in H.
  destruct (c m) as [[a m1] |] eqn:E; [| discriminate].
  apply Hc in E. subst m1. exact (Hk a m b m' H).
Qed.

Lemma read_only_load_header e : read_only (load_header e).
Proof.
  destruct e; try apply read_only_fail.
  intros m a m' H. unfold load_header, load32 in H.
  destruct (in_bounds m off 4); [| discriminate].
  injection H as _ <-. reflexivity.
Qed.

Lemma read_only_get_used e : read_only (get_used e).
Proof.
  apply read_only_bind; [apply read_only_load_header|].
  intros w. apply read_only_ret.
Qed.

Lemma read_only_get_d_size e : read_only (get_d_size e).
Proof.
  apply read_only_bind; [apply read_only_load_header|].
  intros w. apply read_only_ret.
Qed.

Lemma call_eq_dec (c : call) : {c = Monitor} + {c <> Monitor}.
Proof. destruct c; (left; reflexivity) || (right; discriminate). Qed.

Section Sequences.
Context {cfg : Config}.
Hypothesis size_min : 8 <= DM_MEM_SIZE.
Hypothesis size_max : DM_MEM_SIZE <= 2 ^ 31.
Hypothesis size_al : DM_MEM_SIZE mod 4 = 0.

Lemma read_only_ent_get_next e : read_only (ent_get_next e).
Proof using Type.
  clear size_min size_max size_al.
  destruct e; try apply read_only_ret; unfold ent_get_next;
    (apply read_only_bind; [apply read_only_get_d_size|]); intros d;
    cbn [ptr_add]; try apply read_only_ret.
  destruct (_ >=? _); apply read_only_ret.
Qed.

Lemma read_only_monitor_step e mon : read_only (monitor_step e mon).
Proof using Type.
  clear size_min size_max size_al.
  unfold monitor_step.
  apply read_only_bind; [apply read_only_get_used|]. intros u.
  destruct (u =? 0); [| apply read_only_ret].
  apply read_only_bind; [apply read_only_get_d_size|]. intros d.
  apply read_only_bind; [apply read_only_get_d_size|]. intros d'.
  cbn [size_free_big].
  destruct (d' >? _); [| apply read_only_ret].
  apply read_only_bind; [apply read_only_get_d_size|]. intros d''.
  apply read_only_ret.
Qed.

Lemma read_only_monitor_loop : forall n e mon, read_only (monitor_loop n e mon).
Proof using Type.
  clear size_min size_max size_al.
  induction n as [| n IH]; intros e mon; cbn [monitor_loop].
  - apply read_only_fail.
  - destruct (negb (ptr_eqb e NULL)); [| apply read_only_ret].
    apply read_only_bind; [apply read_only_monitor_step|]. intros mon'.
    apply read_only_bind; [apply read_only_ent_get_next|]. intros e'.
    apply IH.
Qed.

(** [dm_monitor] never writes to the pool, whatever the pool holds. *)
Lemma read_only_dm_monitor : read_only dm_monitor.
Proof using Type.
  clear size_min size_max size_al.
  unfold dm_monitor.
  apply read_only_bind; [apply read_only_ent_get_next|]. intros e.
  apply read_only_bind; [apply read_only_monitor_loop|]. intros mon.
  destruct (size_free mon =? 0); [apply read_only_fail | apply read_only_ret].
Qed.

Lemma dm_realloc_no_block n m :
  dm_realloc NULL n m = dm_alloc n m
  /\ dm_realloc ZeroMem n m = dm_alloc n m.
Proof using Type.
  clear size_min size_max size_al.
  unfold dm_realloc, bind.
  destruct (dm_alloc n m) as [[q m1] |]; [| split; reflexivity].
  cbn [ptr_eqb negb andb]. rewrite andb_false_r.
  unfold ret. split; [reflexivity|].
  destruct (ptr_eqb q NULL); cbn [negb andb dm_get_size ptr_eqb Z.eqb];
    reflexivity.
Qed.


Lemma dm_init_arena m0 :
  len m0 = DM_MEM_SIZE ->
  dm_init m0 = Some (tt, layout [free_blk (skipn 4 m0)])
  /\ arena [free_blk (skipn 4 m0)] (layout [free_blk (skipn 4 m0)]).
Proof.
  intros Hl.
  assert (Hlen : (4 <= length m0)%nat) by (unfold len in Hl; lia).
  assert (Hw : length (firstn 4 m0) = 4%nat) by (rewrite length_firstn; lia).
  destruct (any_header _ Hw) as (u & n & Hn & Hwe).
  assert (Hm0 : m0 = [] ++ hdr_bytes u n ++ skipn 4 m0).
  { cbn [app]. rewrite <- Hwe. symmetry. apply firstn_skipn. }
  assert (Hsz : blk_size (free_blk (skipn 4 m0)) = DM_MEM_SIZE - header_size).
  { unfold blk_size, free_blk, header_size, len in *. cbn [blk_data].
    rewrite length_skipn. lia. }
  split.
  - unfold dm_init.
    step (set_used_at [] (skipn 4 m0) u n 0 m0 Hm0 eq_refl Hn false).
    rewrite (set_d_size_at [] (skipn 4 m0) false n 0 _ eq_refl eq_refl Hn
               (DM_MEM_SIZE - header_size))
      by (unfold header_size; lia).
    rewrite layout_one. unfold blk_bytes. rewrite Hsz. reflexivity.
  - split; [reflexivity | split].
    + rewrite len_layout_cons, Hsz. change (len (layout [])) with 0. lia.
    + constructor; [| constructor]. unfold blk_ok. rewrite Hsz.
      unfold header_size. split; [lia | zdm].
Qed.

Lemma alloc_total bs m n :
  arena bs m -> 0 <= n <= 2 ^ 32 - 4 ->
  exists q bs', dm_alloc n m = Some (q, layout bs') /\ arena bs' (layout bs').
Proof.
  intros Har Hn.
  assert (Hsame : arena bs (layout bs)).
  { destruct Har as (Hm & Hl & Hok). rewrite Hm in Hl.
    split; [reflexivity | split; assumption]. }
  assert (Hm : m = layout bs) by exact (proj1 Har).
  destruct (Z.eq_dec n 0) as [-> | Hn0].
  { exists ZeroMem, bs. split; [rewrite <- Hm; reflexivity | exact Hsame]. }
  assert (Hn' : 0 < n < 2 ^ 32) by lia.
  pose proof (round_up4_ceil n ltac:(lia)) as Hceil.
  pose proof (ceil4_spec n) as (Hcn & _).
  destruct (fit_or_not (round_up4 n) bs)
    as [Hnone | (pre & b & post & -> & Hun & Hfit)].
  - exists NULL, bs. split; [| exact Hsame]. rewrite <- Hm.
    exact (dm_alloc_none size_min size_max n bs m Har Hn' Hnone).
  - destruct (dm_alloc_taken size_min size_max n pre b post m Har Hn' Hun Hfit)
      as (b' & rest & Ha' & Hu' & Hsz & Hlen & Hrest).
    specialize (Hrest ltac:(lia)).
    exists (payload_of pre), (pre ++ (b' :: rest) ++ post).
    split; [exact Ha'|].
    destruct Har as (_ & Hl & Hok).
    split; [reflexivity | split].
    + rewrite <- Hl, Hm. rewrite !len_layout_app, Hlen.
      rewrite (len_layout_cons b post), (len_layout_cons b []).
      change (len (layout [])) with 0. lia.
    + clear - Hok Hrest. forall_split. tauto.
Qed.

Lemma free_total bs m p :
  arena bs m -> valid_handle bs p ->
  exists bs', dm_free p m = Some (tt, layout bs') /\ arena bs' (layout bs').
Proof.
  intros Har Hp.
  assert (Hsame : arena bs (layout bs)).
  { destruct Har as (Hm & Hl & Hok). rewrite Hm in Hl.
    split; [reflexivity | split; assumption]. }
  assert (Hm : m = layout bs) by exact (proj1 Har).
  destruct Hp as [-> | [-> | (pre & b & post & -> & Hu & ->)]].
  - exists bs. split; [rewrite <- Hm; reflexivity | exact Hsame].
  - exists bs. split; [rewrite <- Hm; reflexivity | exact Hsame].
  - exists (pre ++ mark false b :: post). split.
    + exact (dm_free_payload pre b post m Hm (arena_blk_lt size_max _ _ _ _ Har)).
    + exact (arena_mark false _ _ _ _ Har).
Qed.

Lemma realloc_total bs m p n :
  arena bs m -> valid_handle bs p -> 0 <= n <= 2 ^ 32 - 4 ->
  exists q bs',
    dm_realloc p n m = Some (q, layout bs') /\ arena bs' (layout bs').
Proof.
  intros Har Hp Hn.
  destruct Hp as [-> | [-> | (pre & b & post & -> & Hu & ->)]].
  - rewrite (proj1 (dm_realloc_no_block n m)).
    exact (alloc_total _ _ _ Har Hn).
  - rewrite (proj2 (dm_realloc_no_block n m)).
    exact (alloc_total _ _ _ Har Hn).
  - destruct (Z.eq_dec n 0) as [-> | Hn0].
    + pose proof Har as (Hm & Hl & Hok).
      assert (Hbok : blk_ok b) by (forall_split; tauto).
      assert (Hlt : blk_size b < 2 ^ 31)
        by exact (arena_blk_lt size_max _ _ _ _ Har).
      exists ZeroMem, (pre ++ mark false b :: post).
      split; [| exact (arena_mark false _ _ _ _ Har)].
      unfold dm_realloc, dm_alloc. cbn [Z.eqb]. norm.
      unfold payload_of at 1. cbn [ptr_eqb negb andb]. fold (payload_of pre).
      step (dm_get_size_payload pre b post m Hm Hlt).
      replace (blk_size b =? 0) with false by (destruct Hbok; zb_false).
      cbn [negb]. unfold min.
      replace (0 <? blk_size b) with true by (destruct Hbok; zb_true).
      unfold memcpy. cbn [Z.eqb]. norm.
      step (dm_free_payload pre b post m Hm Hlt). reflexivity.
    + destruct (dm_realloc_moves size_min size_max pre b post n m Har Hu
                  ltac:(lia))
        as [Hnull | (pre' & qb & post' & A' & B' & Hr' & Har' & _)].
      * exists NULL, (pre ++ b :: post). destruct Har as (Hm & Hl & Hok).
        split; [rewrite <- Hm; exact Hnull|].
        rewrite Hm in Hl. split; [reflexivity | split; assumption].
      * exists (payload_of pre'), (pre' ++ qb :: post'). split; assumption.
Qed.

(** The calls that allocate, free or move return on a consistent pool, and
    leave a consistent pool. *)
Lemma call_total bs m c :
  arena bs m -> valid_call bs c -> c <> Monitor ->
  exists bs', do_call c m = Some (tt, layout bs') /\ arena bs' (layout bs').
Proof.
  intros Har Hv Hc.
  destruct c as [n | p | p n | |]; cbn [do_call valid_call] in *.
  - destruct (alloc_total bs m n Har Hv) as (q & bs' & Ha & Har').
    exists bs'. split; [| exact Har']. unfold bind. rewrite Ha. reflexivity.
  - exact (free_total bs m p Har Hv).
  - destruct Hv as [Hp Hn].
    destruct (realloc_total bs m p n Har Hp Hn) as (q & bs' & Ha & Har').
    exists bs'. split; [| exact Har']. unfold bind. rewrite Ha. reflexivity.
  - congruence.
  - exists bs. destruct Har as (Hm & Hl & Hok). rewrite Hm in *.
    split; [reflexivity|]. split; [reflexivity | split; assumption].
Qed.

Lemma call_preserves bs m c m' :
  arena bs m -> valid_call bs c -> do_call c m = Some (tt, m') ->
  exists bs', arena bs' m'.
Proof.
  intros Har Hv Hc.
  destruct (call_eq_dec c) as [-> | Hne].
  - cbn [do_call] in Hc. unfold bind in Hc.
    destruct (dm_monitor m) as [[r m1] |] eqn:Hmon; [| discriminate].
    injection Hc as <-. apply read_only_dm_monitor in Hmon. subst m1.
    exists bs. exact Har.
  - destruct (call_total bs m c Har Hv Hne) as (bs' & Hc' & Har').
    rewrite Hc' in Hc. injection Hc as <-. exists bs'. exact Har'.
Qed.

(** Every pool reached from the initialised pool by calls on valid handles,
    with sizes that do not wrap, and by stores into held payloads, is
    consistent and tiled. *)
Lemma reachable_tiled m :
  reachable m -> exists bs, arena bs m /\ tiles m = true.
Proof.
  intros Hr.
  assert (Har : exists bs, arena bs m).
  { destruct Hr as [m Hi | bs m c m' _ Har Hv Hc | pre b post d m _ Har Hu Hd].
    - assert (Hl : len work_mem0 = DM_MEM_SIZE).
      { unfold len, work_mem0. rewrite repeat_length. lia. }
      destruct (dm_init_arena work_mem0 Hl) as [Hi' Har].
      rewrite Hi' in Hi. injection Hi as <-. eexists. exact Har.
    - exact (call_preserves bs m c m' Har Hv Hc).
    - eexists. destruct Har as (Hm & Hl & Hok).
      assert (Hs : blk_size {| blk_used := true; blk_data := d |} = blk_size b).
      { unfold blk_size. cbn [blk_data]. rewrite Hd. reflexivity. }
      split; [reflexivity | split].
      + rewrite <- Hl, Hm. lenl. rewrite Hs. reflexivity.
      + assert (Hb : blk_ok b) by (forall_split; tauto).
        pose proof (blk_ok_same b _ Hs Hb).
        clear - Hok H. forall_split. tauto. }
  destruct Har as [bs Har]. exists bs. split; [exact Har|].
  exact (proj2 (arena_tiles size_min size_max bs m Har)).
Qed.
End Sequences.

(** * Examples *)

Ltac conjs := repeat match goal with |- _ /\ _ => split end.

Ltac arena_tac :=
  split; [reflexivity | split; [reflexivity |]];
  repeat constructor; vm_compute; congruence.

Lemma pool16_init : @dm_init conf16 (@work_mem0 conf16) = Some (tt, pool16).
Proof. vm_compute. reflexivity. Qed.

Lemma pool32_init : @dm_init conf32 (@work_mem0 conf32) = Some (tt, pool32).
Proof. vm_compute. reflexivity. Qed.


Lemma size16 : 8 <= @DM_MEM_SIZE conf16 <= 2 ^ 31.
Proof. vm_compute. split; congruence. Defined.

Lemma size32 : 8 <= @DM_MEM_SIZE conf32 <= 2 ^ 31.
Proof. vm_compute. split; congruence. Defined.

(** C1 at a request that wraps: the rounding of [4294967295] should give
    [4294967296], which no block can hold, so [NULL] is expected;
    [dm_alloc] rounds to 0 and hands out the first free block, with a
    payload size of 0. *)
Theorem dm_alloc_wraps :
  ceil4 4294967295 = 4294967296
  /\ @round_up4 4294967295 = 0
  /\ (forall b, In b [free_blk (zeros 28)] -> blk_size b < ceil4 4294967295)
  /\ @dm_alloc conf32 4294967295 pool32 = Some (WorkMem 4, pool32_w)
  /\ @dm_get_size (WorkMem 4) pool32_w = Some (0, pool32_w).
Proof.
  split; [reflexivity|]. split; [reflexivity|]. split.
  - intros b [<- | []]. vm_compute. reflexivity.
  - split; vm_compute; reflexivity.
Qed.

(** C2 on a fresh 32-byte pool: [dm_alloc(8)] cuts the block of 28 bytes. *)
Lemma dm_alloc_split_witness :
  (8 mod 4 = 0 -> ceil4 8 = 8)
  /\ exists b' rest,
    @dm_alloc conf32 8 pool32
    = Some (payload_of [], layout ([] ++ (b' :: rest) ++ []))
    /\ blk_used b' = true
    /\ len (layout (b' :: rest)) = len (layout [free_blk (zeros 28)])
    /\ (ceil4 8 + header_size < blk_size (free_blk (zeros 28)) ->
        blk_size b' = ceil4 8 /\
        exists f, rest = [f] /\ blk_used f = false
                  /\ blk_size f
                     = blk_size (free_blk (zeros 28)) - ceil4 8 - header_size)
    /\ (blk_size (free_blk (zeros 28)) = ceil4 8 + header_size ->
        blk_size b' = blk_size (free_blk (zeros 28)) /\ rest = [])
    /\ (blk_size (free_blk (zeros 28)) = ceil4 8 ->
        blk_size b' = ceil4 8 /\ rest = []).
Proof.
  apply (@dm_alloc_split conf32 (proj1 size32) (proj2 size32) 8 []
           (free_blk (zeros 28)) [] pool32).
  - arena_tac.
  - vm_compute. split; congruence.
  - constructor.
  - reflexivity.
Defined.

(** C3 on a 32-byte pool: after [dm_init], [p = dm_alloc(8)], the caller
    filling its 8 bytes with 0xff, and [dm_realloc(p, 4294967295)], the
    entry at offset 16 has a header made of payload bytes: it claims
    2147483647 bytes and the chain no longer ends at the end of the pool. *)
Theorem tiling_broken_by_realloc :
  (@dm_init conf32 ;; @dm_alloc conf32 8) (@work_mem0 conf32)
  = Some (WorkMem 4, pool32_a)
  /\ memset (WorkMem 4) Byte.xff 8 pool32_a = Some (tt, pool32_f)
  /\ @tiles conf32 pool32_f = true
  /\ @dm_realloc conf32 (WorkMem 4) 4294967295 pool32_f
     = Some (WorkMem 16, pool32_c)
  /\ @chain conf32 pool32_c
     = Some ([(WorkMem 0, 0, 8); (WorkMem 12, 1, 0);
              (WorkMem 16, 1, 2147483647)], pool32_c)
  /\ @tiles conf32 pool32_c = false.
Proof. conjs; vm_compute; reflexivity. Qed.

(** C4 on a fresh 16-byte pool: [dm_alloc(8)] succeeds and [dm_get_size]
    of the result is 12, not 8. *)
Lemma dm_alloc_size_folded :
  @dm_alloc conf16 8 pool16 = Some (WorkMem 4, pool16_full)
  /\ @dm_get_size (WorkMem 4) pool16_full = Some (12, pool16_full)
  /\ ceil4 8 = 8.
Proof. conjs; vm_compute; reflexivity. Qed.

(** [dm_alloc(5)] on a fresh 32-byte pool placed at address 4096. *)
Lemma dm_alloc_size_aligned_witness :
  @dm_alloc conf32 5 pool32 = Some (NULL, pool32)
  \/ exists pre b post m',
       [free_blk (zeros 28)] = pre ++ b :: post
       /\ @dm_alloc conf32 5 pool32 = Some (payload_of pre, m')
       /\ payload_of pre <> NULL
       /\ addr_of place0 (payload_of pre) mod 4 = 0
       /\ dm_get_size (payload_of pre) m'
          = Some (if blk_size b =? ceil4 5 + header_size
                  then ceil4 5 + header_size else ceil4 5, m').
Proof.
  apply (@dm_alloc_size_aligned conf32 (proj1 size32) (proj2 size32) place0 5
           [free_blk (zeros 28)] pool32).
  - reflexivity.
  - arena_tac.
  - vm_compute. split; congruence.
Defined.

(** [dm_monitor] on a 32-byte pool with a used block of 8 bytes and a free
    block of 16 bytes. *)
Lemma dm_monitor_stats_witness :
  @dm_monitor conf32 pool32_a
  = Some ({| cnt_free := count_free [used_blk (zeros 8); free_blk (zeros 16)];
             cnt_used := count_used [used_blk (zeros 8); free_blk (zeros 16)];
             size_free := total_free [used_blk (zeros 8); free_blk (zeros 16)];
             size_free_big :=
               largest_free [used_blk (zeros 8); free_blk (zeros 16)];
             pct_frag :=
               100 - 100 * largest_free [used_blk (zeros 8); free_blk (zeros 16)]
                     / total_free [used_blk (zeros 8); free_blk (zeros 16)] |},
          pool32_a).
Proof.
  apply (@dm_monitor_stats conf32).
  - vm_compute. reflexivity.
  - arena_tac.
  - vm_compute. reflexivity.
Defined.

(** The zero-size handle on a 32-byte pool, with [zero_mem] placed behind
    [work_mem]. *)
Lemma zero_size_handle_witness :
  @dm_alloc conf32 0 pool32_a = Some (ZeroMem, pool32_a)
  /\ (forall o, ZeroMem <> WorkMem o)
  /\ (forall o, 0 <= o < @DM_MEM_SIZE conf32 ->
                addr_of place0 ZeroMem <> addr_of place0 (WorkMem o))
  /\ dm_free ZeroMem pool32_a = Some (tt, pool32_a)
  /\ dm_free NULL pool32_a = Some (tt, pool32_a)
  /\ dm_get_size ZeroMem pool32_a = Some (0, pool32_a).
Proof.
  apply (@zero_size_handle conf32 place0 pool32_a).
  right. vm_compute. congruence.
Defined.

(** [pool32_b] is what [dm_init], [a = dm_alloc(4)], [p = dm_alloc(8)], filling
    [p] with 0xff and [dm_free(a)] leave. *)
Lemma pool32_b_reached :
  (@dm_init conf32 ;; a <- @dm_alloc conf32 4 ;; p <- @dm_alloc conf32 8 ;;
   memset p Byte.xff 8 ;; @dm_free a) (@work_mem0 conf32)
  = Some (tt, pool32_b).
Proof. vm_compute. reflexivity. Qed.

(** C7 on a 32-byte pool: [dm_realloc(p, 4294967295)] of the block of 8
    bytes filled with 0xff returns a pointer whose fifth byte is 0xfe. *)
Theorem realloc_wrap_loses_content :
  @dm_get_size (payload_of [free_blk (zeros 4)]) pool32_b = Some (8, pool32_b)
  /\ min 4294967295 8 = 8
  /\ @dm_realloc conf32 (payload_of [free_blk (zeros 4)]) 4294967295 pool32_b
     = Some (WorkMem 4, pool32_d)
  /\ read_bytes pool32_b 12 8 = ff8
  /\ read_bytes pool32_d 4 8
     = [Byte.xff; Byte.xff; Byte.xff; Byte.xff;
        Byte.xfe; Byte.xff; Byte.xff; Byte.xff]
  /\ read_bytes pool32_d 4 8 <> read_bytes pool32_b 12 8.
Proof.
  conjs; try (vm_compute; reflexivity).
  vm_compute. discriminate.
Qed.

(** [dm_alloc(4)] and [dm_realloc(p, 4)] on a 16-byte pool whose only block
    is in use. *)
Lemma dm_alloc_exhausted_witness :
  @dm_alloc conf16 4 pool16_full = Some (NULL, pool16_full)
  /\ forall p, @dm_realloc conf16 p 4 pool16_full = Some (NULL, pool16_full).
Proof.
  apply (@dm_alloc_exhausted conf16 (proj1 size16) (proj2 size16) 4
           [used_blk (zeros 12)] pool16_full).
  - arena_tac.
  - vm_compute. split; congruence.
  - intros b [<- | []]. discriminate.
Defined.

(** [dm_free] of the used block of [pool32_a]. *)
Lemma dm_free_clears_flag_only_witness :
  @dm_free (payload_of []) pool32_a
  = Some (tt, layout ([] ++ mark false (used_blk (zeros 8))
                         :: [free_blk (zeros 16)]))
  /\ blk_used (mark false (used_blk (zeros 8))) = false
  /\ blk_size (mark false (used_blk (zeros 8))) = blk_size (used_blk (zeros 8))
  /\ blk_data (mark false (used_blk (zeros 8))) = blk_data (used_blk (zeros 8))
  /\ (@arena conf32 ([] ++ used_blk (zeros 8) :: [free_blk (zeros 16)]) pool32_a ->
      @arena conf32 ([] ++ mark false (used_blk (zeros 8)) :: [free_blk (zeros 16)])
        (layout ([] ++ mark false (used_blk (zeros 8)) :: [free_blk (zeros 16)]))).
Proof.
  apply (@dm_free_clears_flag_only conf32 (proj2 size32) []
           (used_blk (zeros 8)) [free_blk (zeros 16)] pool32_a);
    reflexivity.
Defined.

(** [dm_realloc(p, 0)] of the used block of [pool32_a]. *)
Lemma dm_realloc_zero_frees_witness :
  @dm_get_size (payload_of []) pool32_a
  = Some (blk_size (used_blk (zeros 8)), pool32_a)
  /\ @dm_realloc conf32 (payload_of []) 0 pool32_a
     = Some (ZeroMem, layout ([] ++ mark false (used_blk (zeros 8))
                                 :: [free_blk (zeros 16)]))
  /\ ZeroMem <> NULL.
Proof.
  apply (@dm_realloc_zero_frees conf32 (proj2 size32) []
           (used_blk (zeros 8)) [free_blk (zeros 16)] pool32_a);
    reflexivity.
Defined.

(** * Further properties of the operations *)

Lemma read_payload pre b post c :
  0 <= c <= blk_size b ->
  read_bytes (layout (pre ++ b :: post)) (payload_off pre) c
  = firstn (Z.to_nat c) (blk_data b).
Proof.
  intros Hc. rewrite layout_mid.
  set (h := hdr_bytes (blk_used b) (blk_size b)).
  set (d1 := firstn (Z.to_nat c) (blk_data b)).
  set (d2 := skipn (Z.to_nat c) (blk_data b)).
  assert (Hd : blk_data b = d1 ++ d2) by (symmetry; apply firstn_skipn).
  assert (Hl : c = len d1).
  { unfold len, d1, blk_size in *. rewrite length_firstn. lia. }
  replace (layout pre ++ h ++ blk_data b ++ layout post)
    with ((layout pre ++ h) ++ d1 ++ (d2 ++ layout post))
    by (rewrite Hd, <- !app_assoc; reflexivity).
  apply read_bytes_mid; [| exact Hl].
  unfold payload_off, h. rewrite len_app, len_hdr_bytes. reflexivity.
Qed.

Lemma arena_self bs m : forall {cfg : Config}, arena bs m -> arena bs (layout bs).
Proof.
  intros cfg (Hm & Hl & Hok). rewrite Hm in Hl.
  split; [reflexivity | split; assumption].
Qed.

Section Further.
Context {cfg : Config}.
Hypothesis size_min : 8 <= DM_MEM_SIZE.
Hypothesis size_max : DM_MEM_SIZE <= 2 ^ 31.

(** X1: [dm_init] turns [work_mem], whatever it holds, into a single free
    block of [DM_MEM_SIZE - header_size] bytes; the bytes after the first
    header stay as they were. *)
Theorem dm_init_resets m0 :
  DM_MEM_SIZE mod 4 = 0 -> len m0 = DM_MEM_SIZE ->
  dm_init m0 = Some (tt, layout [free_blk (skipn 4 m0)])
  /\ blk_size (free_blk (skipn 4 m0)) = DM_MEM_SIZE - header_size
  /\ skipn 4 (layout [free_blk (skipn 4 m0)]) = skipn 4 m0
  /\ arena [free_blk (skipn 4 m0)] (layout [free_blk (skipn 4 m0)]).
Proof.
  intros Hal Hl.
  destruct (dm_init_arena size_min size_max Hal m0 Hl) as [Hi Har].
  split; [exact Hi|]. split.
  - unfold blk_size, free_blk, header_size, len in *. cbn [blk_data].
    rewrite length_skipn. lia.
  - split; [| exact Har].
    rewrite layout_one. unfold blk_bytes.
    rewrite skipn_app, skipn_all2 by (rewrite length_hdr_bytes; lia).
    rewrite length_hdr_bytes. reflexivity.
Qed.

(** X2: for a request of 1 to 4294967292 bytes on a consistent pool,
    [dm_alloc] returns [NULL] and writes nothing when no block is free with
    at least the request rounded up to a multiple of four; otherwise it
    returns the payload pointer of the first such block in address order,
    now in use, and the blocks before and after it are as they were. *)
Theorem dm_alloc_first_fit n bs m :
  arena bs m -> 0 < n <= 2 ^ 32 - 4 ->
  (Forall (unfit (ceil4 n)) bs -> dm_alloc n m = Some (NULL, m))
  /\ (forall pre b post,
        bs = pre ++ b :: post ->
        Forall (unfit (ceil4 n)) pre -> fits (ceil4 n) b = true ->
        exists b' rest,
          dm_alloc n m
          = Some (payload_of pre, layout (pre ++ (b' :: rest) ++ post))
          /\ blk_used b' = true
          /\ len (layout (b' :: rest)) = len (layout [b])).
Proof.
  intros Har Hn.
  assert (Hn' : 0 < n < 2 ^ 32) by lia.
  rewrite <- (round_up4_ceil n) by lia.
  split.
  - intros Hnone. exact (dm_alloc_none size_min size_max n bs m Har Hn' Hnone).
  - intros pre b post -> Hun Hfit.
    destruct (dm_alloc_taken size_min size_max n pre b post m Har Hn' Hun Hfit)
      as (b' & rest & Ha & Hu & _ & Hlen & _).
    exists b', rest. split; [exact Ha|]. split; assumption.
Qed.

(** X3: the block [dm_alloc] hands out for a request of 1 to 4294967292
    bytes lies inside [work_mem], behind a header, and [dm_get_size] reports
    at least the requested number of bytes for it. *)
Theorem dm_alloc_block_in_bounds n bs m o m' :
  arena bs m -> 0 < n <= 2 ^ 32 - 4 ->
  dm_alloc n m = Some (WorkMem o, m') ->
  exists s,
    dm_get_size (WorkMem o) m' = Some (s, m')
    /\ n <= s /\ header_size <= o /\ o + s <= DM_MEM_SIZE.
Proof.
  intros Har Hn Ha.
  assert (Hn' : 0 < n < 2 ^ 32) by lia.
  pose proof (round_up4_ceil n ltac:(lia)) as Hceil.
  pose proof (ceil4_spec n) as (Hcn & _).
  destruct (fit_or_not (round_up4 n) bs)
    as [Hnone | (pre & b & post & -> & Hun & Hfit)].
  { rewrite (dm_alloc_none size_min size_max n bs m Har Hn' Hnone) in Ha.
    discriminate. }
  destruct (dm_alloc_taken size_min size_max n pre b post m Har Hn' Hun Hfit)
    as (b' & rest & Ha' & Hu & Hsz & Hlen & _).
  rewrite Ha' in Ha. injection Ha as <- <-.
  pose proof (arena_blk_lt size_max _ _ _ _ Har) as Hblt.
  destruct (fits_size _ _ Hfit) as [_ Hle].
  assert (Hb' : round_up4 n <= blk_size b' <= blk_size b).
  { rewrite Hsz. unfold header_size.
    destruct (Z.eqb_spec (blk_size b) (round_up4 n + 4)); lia. }
  exists (blk_size b'). split.
  - apply (dm_get_size_payload pre b' (rest ++ post)); [reflexivity | lia].
  - destruct Har as (Hm & Hl & _). rewrite Hm in Hl.
    rewrite len_layout_app, len_layout_cons in Hl.
    pose proof (len_nonneg (layout pre)). pose proof (len_nonneg (layout post)).
    unfold header_size in *. repeat split; lia.
Qed.

Lemma auto_zero_split k b :
  0 <= k <= blk_size b -> blk_size b = k \/ k + header_size <= blk_size b ->
  blk_ok b -> k mod 4 = 0 ->
  exists b' rest,
    auto_zero k (split_block k b) = b' :: rest
    /\ blk_used b' = true
    /\ (blk_size b' = k \/ blk_size b' = k + header_size)
    /\ len (layout (b' :: rest)) = len (layout [b])
    /\ (0 < k -> Forall blk_ok (b' :: rest))
    /\ firstn (Z.to_nat k) (blk_data b')
       = if DM_AUTO_ZERO =? 0 then firstn (Z.to_nat k) (blk_data b)
         else repeat Byte.x00 (Z.to_nat k).
Proof using Type.
  clear size_min size_max.
  intros Hk Hcase [Hpos Hal] Hk4.
  assert (Hzf : forall c, k <= blk_size c ->
            firstn (Z.to_nat k) (blk_data (zero_fill k c))
            = repeat Byte.x00 (Z.to_nat k)).
  { intros c Hc. cbn [zero_fill blk_data].
    rewrite firstn_app, repeat_length, Nat.sub_diag. cbn [firstn].
    rewrite app_nil_r. apply firstn_all2. rewrite repeat_length. lia. }
  unfold split_block.
  destruct (Z.eqb_spec (blk_size b) k) as [E | N];
    [| destruct (Z.eqb_spec (blk_size b) (k + header_size)) as [E4 | N4]];
    cbn [orb auto_zero].
  1, 2: destruct (DM_AUTO_ZERO =? 0); cbn [negb];
    eexists _, []; (split; [reflexivity|]);
    rewrite ?len_layout_cons, ?Hzf, ?blk_size_zero_fill by
      (change (blk_size (mark true b)) with (blk_size b); lia);
    change (blk_size (mark true b)) with (blk_size b);
    (split; [reflexivity|]); (split; [lia|]); (split; [reflexivity|]);
    (split; [| reflexivity]);
    intros _; repeat constructor;
    rewrite ?blk_size_zero_fill by
      (change (blk_size (mark true b)) with (blk_size b); lia);
    assumption.
  set (b1 := {| blk_used := true;
                blk_data := firstn (Z.to_nat k) (blk_data b) |}).
  set (f := {| blk_used := false;
               blk_data := skipn (Z.to_nat (k + header_size)) (blk_data b) |}).
  assert (Hb1 : blk_size b1 = k).
  { unfold blk_size, b1 in *. cbn [blk_data]. rewrite length_firstn. lia. }
  assert (Hf : blk_size f = blk_size b - k - header_size).
  { unfold blk_size, f, header_size in *. cbn [blk_data].
    rewrite length_skipn. lia. }
  assert (Hfok : blk_ok f).
  { unfold blk_ok. rewrite Hf. unfold header_size in *. split; zdm. }
  assert (Hd1 : firstn (Z.to_nat k) (blk_data b1) = firstn (Z.to_nat k) (blk_data b)).
  { unfold b1. cbn [blk_data]. rewrite firstn_firstn, Nat.min_id. reflexivity. }
  destruct (DM_AUTO_ZERO =? 0); cbn [negb];
    eexists _, [f]; (split; [reflexivity|]);
    rewrite ?len_layout_cons, ?Hzf, ?blk_size_zero_fill, ?Hb1, ?Hf by lia;
    change (len (layout [])) with 0;
    (split; [reflexivity|]); (split; [lia|]);
    (split; [unfold header_size in *; lia|]);
    (split; [| reflexivity || exact Hd1]);
    intros Hk0; repeat constructor;
    rewrite ?blk_size_zero_fill, ?Hb1 by lia; try assumption; try lia;
    exact (proj1 Hfok) || exact (proj2 Hfok).
Qed.

(** X5: when [dm_alloc(n)] succeeded with [p], [dm_free(p)] followed by
    [dm_alloc(n)] returns [p] again and leaves the pool exactly as the first
    call left it. *)
Theorem alloc_free_alloc_round_trip n bs m p m1 :
  arena bs m -> 0 < n <= 2 ^ 32 - 4 ->
  dm_alloc n m = Some (p, m1) -> p <> NULL ->
  exists m2,
    dm_free p m1 = Some (tt, m2)
    /\ dm_alloc n m2 = Some (p, m1).
Proof.
  intros Har Hn Ha Hp.
  assert (Hn' : 0 < n < 2 ^ 32) by lia.
  pose proof (round_up4_ceil n ltac:(lia)) as Hceil.
  pose proof (ceil4_spec n) as (Hcn & _).
  destruct (round_up4_range n ltac:(lia)) as [Hk Hk4].
  destruct (fit_or_not (round_up4 n) bs)
    as [Hnone | (pre & b & post & -> & Hun & Hfit)].
  { rewrite (dm_alloc_none size_min size_max n bs m Har Hn' Hnone) in Ha.
    injection Ha as <- _. contradiction. }
  rewrite (dm_alloc_fit size_min size_max n pre b post m Har Hn' Hun Hfit) in Ha.
  set (k := round_up4 n) in *.
  destruct (fits_size _ _ Hfit) as [_ Hle].
  pose proof Har as (Hm & Hl & Hok).
  assert (Hbok : blk_ok b) by (forall_split; tauto).
  destruct (auto_zero_split k b (conj (proj1 Hk) Hle)
              (fits_case _ _ Hfit Hk4 (proj2 Hbok)) Hbok Hk4)
    as (b' & rest & Hsp & Hu & Hsz & Hlen & Hrest & Hdata).
  specialize (Hrest ltac:(lia)).
  rewrite Hsp in Ha. injection Ha as <- <-.
  assert (Hb'lt : blk_size b' < 2 ^ 31).
  { pose proof (arena_blk_lt size_max _ _ _ _ Har) as Hblt.
    rewrite !len_layout_cons in Hlen. change (len (layout [])) with 0 in Hlen.
    pose proof (len_nonneg (layout rest)). lia. }
  exists (layout (pre ++ mark false b' :: rest ++ post)). split.
  { apply (dm_free_payload pre b' (rest ++ post)); [reflexivity | exact Hb'lt]. }
  assert (Har2 : arena (pre ++ mark false b' :: rest ++ post)
                   (layout (pre ++ mark false b' :: rest ++ post))).
  { split; [reflexivity | split].
    - rewrite <- Hl, Hm. lenl.
      change (blk_size (mark false b')) with (blk_size b').
      rewrite !len_layout_cons in Hlen. change (len (layout [])) with 0 in Hlen.
      lia.
    - assert (blk_ok (mark false b')) by exact (Forall_inv Hrest).
      clear - Hok Hrest H. forall_split. tauto. }
  assert (Hfit2 : fits k (mark false b') = true).
  { unfold fits. cbn [mark blk_used negb andb].
    change (blk_size (mark false b')) with (blk_size b').
    apply Z.leb_le. unfold header_size in *. lia. }
  rewrite (dm_alloc_fit size_min size_max n pre (mark false b') (rest ++ post)
             _ Har2 Hn' Hun Hfit2).
  fold k.
  assert (Hsame : auto_zero k (split_block k (mark false b')) = [b']).
  { unfold split_block.
    change (blk_size (mark false b')) with (blk_size b').
    replace ((blk_size b' =? k) || (blk_size b' =? k + header_size)) with true
      by (symmetry; apply orb_true_iff; rewrite !Z.eqb_eq; exact Hsz).
    assert (Hmm : mark true (mark false b') = b').
    { destruct b' as [u d]. cbn in Hu. subst u. reflexivity. }
    rewrite Hmm. cbn [auto_zero].
    destruct (DM_AUTO_ZERO =? 0); cbn [negb]; [reflexivity|].
    f_equal. destruct b' as [u d]. unfold zero_fill. cbn [blk_used blk_data] in *.
    f_equal. rewrite <- Hdata. apply firstn_skipn. }
  rewrite Hsame. reflexivity.
Qed.

(** X6: [dm_free] does not detect a second release: on the payload pointer
    of any block of the chain, free or in use, it returns, and a second call
    changes nothing more. *)
Theorem dm_free_twice pre b post m :
  m = layout (pre ++ b :: post) -> len m = DM_MEM_SIZE ->
  exists m',
    dm_free (payload_of pre) m = Some (tt, m')
    /\ dm_free (payload_of pre) m' = Some (tt, m').
Proof.
  intros Hm Hl.
  assert (Hlt : blk_size b < 2 ^ 31).
  { apply (blk_size_lt size_max pre b post). rewrite <- Hm. exact Hl. }
  exists (layout (pre ++ mark false b :: post)). split.
  - exact (dm_free_payload pre b post m Hm Hlt).
  - exact (dm_free_payload pre (mark false b) post _ eq_refl Hlt).
Qed.

(** X7: on a freshly initialised pool a request of 1 to 4294967292 bytes
    succeeds, at offset [header_size], exactly when it fits, rounded up to a
    multiple of four, into [DM_MEM_SIZE - header_size] bytes; a larger one
    returns [NULL] and leaves the pool as [dm_init] made it. *)
Theorem fresh_pool_capacity m0 n :
  DM_MEM_SIZE mod 4 = 0 -> len m0 = DM_MEM_SIZE -> 0 < n <= 2 ^ 32 - 4 ->
  exists m,
    dm_init m0 = Some (tt, m)
    /\ (ceil4 n <= DM_MEM_SIZE - header_size ->
        exists m', dm_alloc n m = Some (WorkMem header_size, m'))
    /\ (DM_MEM_SIZE - header_size < ceil4 n ->
        dm_alloc n m = Some (NULL, m)).
Proof.
  intros Hal Hl Hn.
  assert (Hn' : 0 < n < 2 ^ 32) by lia.
  destruct (dm_init_arena size_min size_max Hal m0 Hl) as [Hi Har].
  set (b := free_blk (skipn 4 m0)) in *.
  assert (Hsz : blk_size b = DM_MEM_SIZE - header_size).
  { unfold blk_size, b, free_blk, header_size, len in *. cbn [blk_data].
    rewrite length_skipn. lia. }
  exists (layout [b]). split; [exact Hi|].
  rewrite <- (round_up4_ceil n) by lia. split.
  - intros Hfit.
    assert (Hf : fits (round_up4 n) b = true).
    { unfold fits. cbn [b free_blk blk_used negb andb]. apply Z.leb_le. lia. }
    destruct (dm_alloc_taken size_min size_max n [] b [] _ Har Hn'
                (Forall_nil _) Hf) as (b' & rest & Ha & _).
    eexists. exact Ha.
  - intros Hbig.
    apply (dm_alloc_none size_min size_max n [b] _ Har Hn').
    constructor; [| constructor]. unfold unfit, fits.
    cbn [b free_blk blk_used negb andb]. apply Z.leb_gt. lia.
Qed.

(** X8: when [dm_realloc(p, n)], for a block in use and 1 to 4294967292
    bytes, returns a pointer into the pool, the first [min(n, old_size)]
    bytes there are the bytes [p] pointed to before the call, the pool is
    consistent, and the block of [p] is in it, free, at the same place. *)
Theorem dm_realloc_keeps_content A pb B n m q m' :
  arena (A ++ pb :: B) m -> blk_used pb = true -> 0 < n <= 2 ^ 32 - 4 ->
  dm_realloc (payload_of A) n m = Some (WorkMem q, m') ->
  dm_get_size (payload_of A) m = Some (blk_size pb, m)
  /\ read_bytes m' q (min n (blk_size pb))
     = read_bytes m (payload_off A) (min n (blk_size pb))
  /\ exists bs' A' B',
       arena bs' m' /\ bs' = A' ++ mark false pb :: B'
       /\ payload_of A' = payload_of A.
Proof.
  intros Har Hu Hn Hr.
  pose proof (arena_blk_lt size_max _ _ _ _ Har) as Hplt.
  pose proof Har as (Hm & _ & Hok).
  assert (Hpok : blk_ok pb) by (forall_split; tauto).
  split; [exact (dm_get_size_payload A pb B m Hm Hplt)|].
  destruct (dm_realloc_moves size_min size_max A pb B n m Har Hu Hn)
    as [Hnull | (pre & qb & post & A' & B' & Hr' & Har' & Hqu & Hdata & Heq & Hpay)].
  { rewrite Hnull in Hr. discriminate. }
  rewrite Hr' in Hr. injection Hr as <- <-.
  set (c := min n (blk_size pb)) in *.
  assert (Hc : 0 < c <= blk_size pb).
  { unfold c. rewrite min_spec. destruct Hpok. lia. }
  assert (Hcq : c <= blk_size qb).
  { apply (f_equal (@length byte)) in Hdata.
    rewrite !length_firstn in Hdata. unfold blk_size in *. lia. }
  split.
  - fold (payload_off pre). rewrite Hm.
    rewrite (read_payload pre qb post c), (read_payload A pb B c) by lia.
    exact Hdata.
  - exists (pre ++ qb :: post), A', B'. repeat split; try assumption;
      destruct Har' as (_ & Hl' & Hok'); assumption.
Qed.

(** X9: [dm_realloc] never resizes in place: for a block in use and a size
    of 1 to 4294967292 bytes, the pointer it returns is not the one it was
    given. *)
Theorem dm_realloc_never_in_place A pb B n m q m' :
  arena (A ++ pb :: B) m -> blk_used pb = true -> 0 < n <= 2 ^ 32 - 4 ->
  dm_realloc (payload_of A) n m = Some (q, m') ->
  q <> payload_of A.
Proof.
  intros Har Hu Hn Hr.
  destruct (dm_realloc_moves size_min size_max A pb B n m Har Hu Hn)
    as [Hnull | (pre & qb & post & A' & B' & Hr' & _ & Hqu & _ & Heq & Hpay)].
  { rewrite Hnull in Hr. injection Hr as <- _. discriminate. }
  rewrite Hr' in Hr. injection Hr as <- _. rewrite <- Hpay.
  assert (Hne : qb <> mark false pb).
  { intros ->. discriminate. }
  unfold payload_of. intros H. injection H as H.
  destruct (two_positions qb (mark false pb) pre post A' B' Heq Hne)
    as [(l & -> & _) | (l & -> & _)];
    rewrite len_layout_app, len_layout_cons in H;
    pose proof (len_nonneg (layout l));
    [pose proof (blk_size_nonneg qb) | pose proof (blk_size_nonneg (mark false pb))];
    unfold header_size in *; lia.
Qed.

(** X10: with [NULL] or the address of [zero_mem] as pointer, [dm_realloc]
    is [dm_alloc]: same result and same pool, for every size and every pool
    content. *)
Theorem dm_realloc_without_block n m :
  dm_realloc NULL n m = dm_alloc n m
  /\ dm_realloc ZeroMem n m = dm_alloc n m.
Proof using Type.
  clear size_min size_max.
  unfold dm_realloc, bind.
  destruct (dm_alloc n m) as [[q m1] |]; [| split; reflexivity].
  cbn [ptr_eqb negb andb]. rewrite andb_false_r.
  unfold ret. split; [reflexivity|].
  destruct (ptr_eqb q NULL); cbn [negb andb dm_get_size ptr_eqb Z.eqb];
    reflexivity.
Qed.
End Further.

(** ** The walk and the statistics, further *)

Lemma free_sizes_app a b : free_sizes (a ++ b) = free_sizes a ++ free_sizes b.
Proof. unfold free_sizes. rewrite filter_app, map_app. reflexivity. Qed.

Lemma count_free_len bs : count_free bs = Z.of_nat (length (free_sizes bs)).
Proof. unfold count_free, free_sizes. rewrite length_map. reflexivity. Qed.

Lemma count_used_app a b : count_used (a ++ b) = count_used a + count_used b.
Proof. unfold count_used. rewrite filter_app, length_app. lia. Qed.

Lemma total_free_zero bs :
  Forall blk_ok bs ->
  (total_free bs = 0 <-> Forall (fun b => blk_used b = true) bs).
Proof.
  induction 1 as [| b bs [Hpos _] _ IH].
  - split; [constructor | reflexivity].
  - change (b :: bs) with ([b] ++ bs).
    unfold total_free in *. rewrite free_sizes_app, sum_app.
    assert (H0 : 0 <= fold_right Z.add 0 (free_sizes bs)).
    { pose proof (stats_bounds bs) as (_ & _ & _ & Hb).
      unfold total_free, largest_free in Hb. lia. }
    unfold free_sizes at 1. cbn [filter app].
    destruct (blk_used b) eqn:Hu; cbn [negb map fold_right].
    + rewrite Z.add_0_l, IH. split.
      * intros Hall. constructor; assumption.
      * intros Hall. exact (Forall_inv_tail Hall).
    + split; [lia|]. intros Hall. apply Forall_inv in Hall. congruence.
Qed.

Section Statistics.
Context {cfg : Config}.
Hypothesis size_min : 8 <= DM_MEM_SIZE.
Hypothesis size_max : DM_MEM_SIZE <= 2 ^ 31.

(** What [dm_monitor] does on a consistent pool. *)
Lemma monitor_eval bs m :
  arena bs m ->
  dm_monitor m
  = if total_free bs =? 0 then None
    else Some ({| cnt_free := count_free bs;
                  cnt_used := count_used bs;
                  size_free := total_free bs;
                  size_free_big := largest_free bs;
                  pct_frag := 100 - wrap32 (largest_free bs * 100)
                                    / total_free bs |}, m).
Proof.
  intros Har.
  pose proof (arena_fuel _ _ Har) as Hfuel.
  destruct Har as (Hm & Hl & Hok).
  destruct bs as [| b post].
  { rewrite Hm in Hl. change (len (layout [])) with 0 in Hl. lia. }
  unfold dm_monitor. unfold ent_get_next at 1. norm.
  change mon_zero with (stats_of []).
  change (WorkMem 0) with (WorkMem (len (layout []))).
  step (monitor_loop_chain size_max post [] b m max_rounds Hm Hl
          (Forall_inv_tail Hok) ltac:(cbn [length] in Hfuel; lia)).
  cbn [app stats_of size_free size_free_big cnt_free cnt_used].
  destruct (total_free (b :: post) =? 0); reflexivity.
Qed.

(** X11: every pool reached from the initialised pool by calls on valid
    handles with sizes of at most 4294967292 bytes, and by stores of the
    caller into payloads it holds, is the image of a chain of blocks with
    non-empty, 4-aligned payloads; the walk of [ent_get_next] meets exactly
    these blocks and ends at the end of [work_mem]. *)
Theorem reachable_pool_tiled m :
  DM_MEM_SIZE mod 4 = 0 -> reachable m ->
  exists bs,
    arena bs m /\ chain m = Some (entries_from 0 bs, m) /\ tiles m = true.
Proof.
  intros Hal Hr.
  destruct (reachable_tiled size_min size_max Hal m Hr) as (bs & Har & Ht).
  exists bs. split; [exact Har|]. split; [| exact Ht].
  exact (proj1 (arena_tiles size_min size_max bs m Har)).
Qed.

(** X12: on a consistent pool [ent_get_next] from the header of a block
    returns the header of the block that follows it in the chain, and [NULL]
    from the last block; it writes nothing. *)
Theorem ent_get_next_follows_chain pre b post m :
  arena (pre ++ b :: post) m ->
  ent_get_next NULL m = Some (WorkMem 0, m)
  /\ ent_get_next (WorkMem (len (layout pre))) m
     = Some (match post with
             | [] => NULL
             | _ :: _ =>
                 WorkMem (len (layout pre) + header_size + blk_size b)
             end, m).
Proof.
  intros (Hm & Hl & Hok). split; [reflexivity|].
  destruct post as [| c post].
  - exact (next_last size_max pre b m Hm Hl).
  - assert (Hc : blk_ok c) by (forall_split; tauto).
    rewrite (next_inner size_max pre b c post m Hm Hl (proj1 Hc)).
    rewrite len_layout_app, len_layout_cons.
    change (len (layout [])) with 0. do 3 f_equal. lia.
Qed.

Lemma load32_in m o :
  0 <= o -> o + 4 <= len m ->
  load32 o m = Some (le_combine (read_bytes m o 4), m)
  /\ 0 <= le_combine (read_bytes m o 4).
Proof using Type.
  clear size_min size_max.
  intros H0 H4. split.
  - unfold load32, in_bounds. fold (len m).
    replace (0 <=? o) with true by zb_true.
    replace (o + 4 <=? len m) with true by zb_true.
    reflexivity.
  - apply le_combine_bound.
Qed.

Lemma walk_any m : forall n o,
  len m = DM_MEM_SIZE -> 0 <= o -> o + header_size <= DM_MEM_SIZE ->
  (Z.to_nat (DM_MEM_SIZE - o) < n)%nat ->
  exists es, walk n (WorkMem o) m = Some (es, m) /\ Forall entry_in_pool es.
Proof using Type.
  clear size_min size_max.
  induction n as [| n IH]; intros o Hl H0 H4 Hn; [lia|].
  unfold header_size in *.
  destruct (load32_in m o H0 ltac:(lia)) as [Hld Hw].
  set (w := le_combine (read_bytes m o 4)) in *.
  assert (Hu : get_used (WorkMem o) m = Some (hdr_used w, m)).
  { unfold get_used, load_header. rewrite (bind_some _ _ _ _ _ Hld). reflexivity. }
  assert (Hd : get_d_size (WorkMem o) m = Some (hdr_d_size w, m)).
  { unfold get_d_size, load_header. rewrite (bind_some _ _ _ _ _ Hld). reflexivity. }
  assert (Hd0 : 0 <= hdr_d_size w) by (rewrite hdr_d_size_eq; zdm).
  cbn [walk ptr_eqb].
  step Hu. step Hd.
  unfold ent_get_next. step Hd. cbn [ptr_add]. unfold header_size.
  assert (Hentry : entry_in_pool (WorkMem o, hdr_used w, hdr_d_size w)).
  { exists o. cbn [fst snd]. unfold header_size. repeat split; lia. }
  destruct (Z.geb_spec (o + 4 + hdr_d_size w + 4) DM_MEM_SIZE) as [Hge | Hlt].
  - norm. destruct n as [| n]; [lia|]. cbn [walk ptr_eqb]. norm.
    eexists. split; [reflexivity|]. constructor; [exact Hentry | constructor].
  - norm.
    destruct (IH (o + 4 + hdr_d_size w) Hl ltac:(lia) ltac:(lia) ltac:(lia))
      as (es & He & Hes).
    rewrite (bind_some _ _ _ _ _ He). unfold ret.
    eexists. split; [reflexivity|]. constructor; assumption.
Qed.

(** X13: whatever bytes [work_mem] holds, following [ent_get_next] from the
    first entry ends with [NULL] within [DM_MEM_SIZE] steps, reads headers
    inside [work_mem] only and writes nothing.  Addresses are offsets in
    [Z]: the sum of an address and a [d_size] does not wrap. *)
Theorem walk_stays_in_pool m :
  len m = DM_MEM_SIZE ->
  exists es,
    chain m = Some (es, m) /\ es <> [] /\ Forall entry_in_pool es.
Proof.
  intros Hl. unfold chain. unfold ent_get_next at 1. norm.
  destruct (walk_any m max_rounds 0 Hl ltac:(lia)
              ltac:(unfold header_size; lia)
              ltac:(unfold max_rounds; lia)) as (es & He & Hes).
  exists es. split; [exact He|]. split; [| exact Hes].
  intros ->. unfold max_rounds in He. cbn [walk ptr_eqb] in He.
  unfold bind in He.
  destruct (get_used (WorkMem 0) m) as [[u m1] |]; [| discriminate].
  destruct (get_d_size (WorkMem 0) m1) as [[d m2] |]; [| discriminate].
  destruct (ent_get_next (WorkMem 0) m2) as [[e m3] |]; [| discriminate].
  destruct (walk (Z.to_nat DM_MEM_SIZE) e m3) as [[r m4] |]; discriminate.
Qed.


(** X15: on a consistent pool [dm_monitor] divides by zero, and has no
    result, exactly when every block is in use. *)
Theorem dm_monitor_all_used bs m :
  arena bs m ->
  (dm_monitor m = None <-> Forall (fun b => blk_used b = true) bs).
Proof.
  intros Har. rewrite (monitor_eval bs m Har).
  rewrite <- (total_free_zero bs (proj2 (proj2 Har))).
  destruct (Z.eqb_spec (total_free bs) 0) as [E | N].
  - split; [intros _; exact E | reflexivity].
  - split; [discriminate | contradiction].
Qed.

(** X16: what [dm_monitor] reports on a consistent pool is bounded: a
    percentage between 0 and 100, at least one free block, a largest free
    block that is not empty and not larger than the free total, headers and
    free bytes that fit into [DM_MEM_SIZE]; with a single free block the
    percentage is 0. *)
Theorem dm_monitor_bounds bs m r m' :
  100 * DM_MEM_SIZE < 2 ^ 32 ->
  arena bs m -> dm_monitor m = Some (r, m') ->
  0 <= pct_frag r <= 100
  /\ 0 < cnt_free r /\ 0 <= cnt_used r
  /\ 0 < size_free_big r <= size_free r
  /\ header_size * (cnt_free r + cnt_used r) + size_free r <= DM_MEM_SIZE
  /\ (cnt_free r = 1 -> pct_frag r = 0).
Proof.
  intros Hsmall Har Hmon. rewrite (monitor_eval bs m Har) in Hmon.
  destruct (Z.eqb_spec (total_free bs) 0) as [E | N]; [discriminate|].
  apply (f_equal (fun x => match x with Some (a, _) => a | None => r end))
    in Hmon.
  cbv beta iota in Hmon. subst r.
  cbn [pct_frag cnt_free cnt_used size_free size_free_big].
  pose proof (stats_bounds bs) as (Hcf & Hcu & Hsum & Hbig).
  destruct Har as (Hm & Hl & Hok). rewrite <- Hm, Hl in Hsum.
  rewrite wrap32_small by lia.
  assert (Hfree : 0 < count_free bs /\ 0 < largest_free bs
                  /\ (count_free bs = 1 -> largest_free bs = total_free bs)).
  { rewrite count_free_len. unfold total_free, largest_free in *.
    assert (Hall : Forall (fun x => 0 < x) (free_sizes bs)).
    { unfold free_sizes. apply Forall_forall. intros x Hx.
      apply in_map_iff in Hx. destruct Hx as (b & <- & Hb).
      apply filter_In in Hb. destruct Hb as [Hb _].
      rewrite Forall_forall in Hok. exact (proj1 (Hok b Hb)). }
    destruct (free_sizes bs) as [| x l]; [cbn in N; lia|].
    pose proof (Forall_inv Hall) as Hx.
    cbn [length fold_right] in *. repeat split; try lia.
    intros H1. destruct l; [cbn [fold_right]; lia | cbn [length] in H1; lia]. }
  destruct Hfree as (Hc1 & Hb1 & Hone).
  assert (Hq1 : largest_free bs * 100 / total_free bs <= 100).
  { apply Z.div_le_upper_bound; lia. }
  assert (Hq0 : 0 <= largest_free bs * 100 / total_free bs).
  { apply Z.div_pos; lia. }
  unfold header_size. conjs; try lia.
  - intros H1. rewrite (Hone H1).
    rewrite (Z.mul_comm (total_free bs) 100), Z.div_mul by lia. reflexivity.
Qed.

(** X17: after [dm_free] of a block in use, [dm_monitor] has a result: one
    free block more, one used block less, the freed payload added to the
    free bytes, and as largest free block the larger of the former one and
    the freed block; no two free blocks were merged.  The percentage is
    computed from these two sizes, the product by 100 taken modulo
    [2 ^ 32]. *)
Theorem dm_free_then_monitor pre b post m :
  arena (pre ++ b :: post) m -> blk_used b = true ->
  exists m',
    dm_free (payload_of pre) m = Some (tt, m')
    /\ dm_monitor m'
       = Some ({| cnt_free := count_free (pre ++ b :: post) + 1;
                  cnt_used := count_used (pre ++ b :: post) - 1;
                  size_free := total_free (pre ++ b :: post) + blk_size b;
                  size_free_big :=
                    Z.max (largest_free (pre ++ b :: post)) (blk_size b);
                  pct_frag :=
                    100 - wrap32 (Z.max (largest_free (pre ++ b :: post))
                                        (blk_size b) * 100)
                          / (total_free (pre ++ b :: post) + blk_size b) |},
               m').
Proof.
  intros Har Hu.
  pose proof Har as (Hm & Hl & Hok).
  assert (Hbok : blk_ok b) by (forall_split; tauto).
  destruct Hbok as [Hpos _].
  exists (layout (pre ++ mark false b :: post)). split.
  { exact (dm_free_payload pre b post m Hm (arena_blk_lt size_max _ _ _ _ Har)). }
  rewrite (monitor_eval _ _ (arena_mark false pre b post m Har)).
  assert (Hfs : free_sizes (pre ++ mark false b :: post)
                = free_sizes pre ++ [blk_size b] ++ free_sizes post).
  { change (mark false b :: post) with ([mark false b] ++ post).
    rewrite !free_sizes_app. reflexivity. }
  assert (Hfs0 : free_sizes (pre ++ b :: post)
                 = free_sizes pre ++ free_sizes post).
  { change (b :: post) with ([b] ++ post).
    rewrite !free_sizes_app. unfold free_sizes at 2. cbn [filter].
    rewrite Hu. reflexivity. }
  assert (Hcu : count_used (pre ++ mark false b :: post)
                = count_used (pre ++ b :: post) - 1).
  { change (mark false b :: post) with ([mark false b] ++ post).
    change (b :: post) with ([b] ++ post).
    rewrite !count_used_app. unfold count_used at 2 5. cbn [filter mark blk_used].
    rewrite Hu. cbn [length]. lia. }
  assert (Hcf : count_free (pre ++ mark false b :: post)
                = count_free (pre ++ b :: post) + 1).
  { rewrite !count_free_len, Hfs, Hfs0, !length_app. cbn [length]. lia. }
  assert (Htf : total_free (pre ++ mark false b :: post)
                = total_free (pre ++ b :: post) + blk_size b).
  { unfold total_free. rewrite Hfs, Hfs0, !sum_app. cbn [fold_right]. lia. }
  assert (Hlf : largest_free (pre ++ mark false b :: post)
                = Z.max (largest_free (pre ++ b :: post)) (blk_size b)).
  { unfold largest_free. rewrite Hfs, Hfs0, !max_app. cbn [fold_right]. lia. }
  pose proof (stats_bounds (pre ++ b :: post)) as (Hc0 & Hc1 & Hsum & Hbig).
  rewrite <- Hm, Hl in Hsum.
  rewrite Hcu, Hcf, Htf, Hlf.
  replace (total_free (pre ++ b :: post) + blk_size b =? 0) with false
    by zb_false.
  reflexivity.
Qed.
End Statistics.

(** ** Sequences of calls *)

Section Sequences2.
Context {cfg : Config}.
Hypothesis size_min : 8 <= DM_MEM_SIZE.
Hypothesis size_max : DM_MEM_SIZE <= 2 ^ 31.

Lemma unfit_small k b : blk_size b < k -> unfit k b.
Proof using Type.
  clear size_min size_max.
  intros H. unfold unfit, fits. replace (k <=? blk_size b) with false by zb_false.
  apply andb_false_r.
Qed.

(** X18: free blocks are never merged, and [dm_defrag] does nothing: after
    [dm_free] of two neighbouring blocks and [dm_defrag], a request of 1 to
    4294967292 bytes that, rounded up to a multiple of four, is larger than
    each of the two is refused when no other free block can hold it, even
    when the two blocks together could; the pool is the former chain with
    the two flags cleared. *)
Theorem freed_neighbours_not_merged n pre a b post m :
  arena (pre ++ a :: b :: post) m ->
  blk_used a = true -> blk_used b = true ->
  0 < n <= 2 ^ 32 - 4 ->
  blk_size a < ceil4 n -> blk_size b < ceil4 n ->
  Forall (unfit (ceil4 n)) pre -> Forall (unfit (ceil4 n)) post ->
  (dm_free (payload_of pre) ;; dm_free (payload_of (pre ++ [a])) ;;
   dm_defrag ;; dm_alloc n) m
  = Some (NULL, layout (pre ++ mark false a :: mark false b :: post)).
Proof.
  intros Har Hua Hub Hn Ha Hb Hpre Hpost.
  pose proof Har as (Hm & Hl & Hok).
  pose proof (arena_mark false pre a (b :: post) m Har) as Har1.
  assert (E1 : pre ++ mark false a :: b :: post
               = (pre ++ [mark false a]) ++ b :: post) by list_eq.
  rewrite E1 in Har1.
  pose proof (arena_mark false (pre ++ [mark false a]) b post _ Har1) as Har2.
  rewrite (bind_some _ _ _ _ _
             (dm_free_payload pre a (b :: post) m Hm
                (arena_blk_lt size_max _ _ _ _ Har))).
  rewrite E1.
  rewrite (payload_of_same_len (pre ++ [a]) (pre ++ [mark false a]))
    by (rewrite !len_layout_app, !len_layout_cons; reflexivity).
  rewrite (bind_some _ _ _ _ _
             (dm_free_payload (pre ++ [mark false a]) b post _ eq_refl
                (arena_blk_lt size_max _ _ _ _ Har1))).
  unfold dm_defrag. rewrite (bind_some _ _ _ _ _ eq_refl).
  assert (E2 : (pre ++ [mark false a]) ++ mark false b :: post
               = pre ++ mark false a :: mark false b :: post) by list_eq.
  rewrite E2 in *.
  apply (dm_alloc_none size_min size_max n _ _ Har2); [lia|].
  rewrite (round_up4_ceil n) by lia.
  apply Forall_app. split; [exact Hpre|].
  constructor; [apply unfit_small; exact Ha|].
  constructor; [apply unfit_small; exact Hb | exact Hpost].
Qed.

(** X19: two successive allocations of 1 to 4294967292 bytes never overlap:
    the two payloads, with the sizes [dm_get_size] reports for them after
    the second call, are apart by at least one header. *)
Theorem successive_allocs_disjoint n1 n2 bs m o1 m1 o2 m2 :
  arena bs m -> 0 < n1 <= 2 ^ 32 - 4 -> 0 < n2 <= 2 ^ 32 - 4 ->
  dm_alloc n1 m = Some (WorkMem o1, m1) ->
  dm_alloc n2 m1 = Some (WorkMem o2, m2) ->
  exists s1 s2,
    dm_get_size (WorkMem o1) m2 = Some (s1, m2)
    /\ dm_get_size (WorkMem o2) m2 = Some (s2, m2)
    /\ n1 <= s1 /\ n2 <= s2
    /\ (o1 + s1 + header_size <= o2 \/ o2 + s2 + header_size <= o1).
Proof.
  intros Har Hn1 Hn2 Ha1 Ha2.
  pose proof (round_up4_ceil n1 ltac:(lia)) as Hc1.
  pose proof (round_up4_ceil n2 ltac:(lia)) as Hc2.
  pose proof (ceil4_spec n1) as (Hcn1 & _).
  pose proof (ceil4_spec n2) as (Hcn2 & _).
  (* the first call *)
  destruct (fit_or_not (round_up4 n1) bs)
    as [Hnone | (pre & b & post & -> & Hun & Hfit)].
  { rewrite (dm_alloc_none size_min size_max n1 bs m Har ltac:(lia) Hnone)
      in Ha1. discriminate. }
  destruct (dm_alloc_taken size_min size_max n1 pre b post m Har
              ltac:(lia) Hun Hfit)
    as (b1 & rest1 & Ha1' & Hu1 & Hs1 & Hlen1 & Hok1).
  rewrite Ha1' in Ha1.
  assert (Ho1 : payload_of pre = WorkMem o1) by congruence.
  assert (Hm1 : layout (pre ++ (b1 :: rest1) ++ post) = m1) by congruence.
  clear Ha1.
  assert (Hlen1n : blk_size b1 + len (layout rest1) = blk_size b).
  { rewrite !len_layout_cons in Hlen1.
    change (len (layout [])) with 0 in Hlen1. lia. }
  assert (Har1 : arena (pre ++ (b1 :: rest1) ++ post) m1).
  { destruct Har as (Hm & Hl & Hok). subst m1. split; [reflexivity|]. split.
    - rewrite <- Hl, Hm. lenl. lia.
    - forall_split. destruct Hok as (Hp & _ & Hq).
      specialize (Hok1 ltac:(lia)). forall_split. tauto. }
  (* the second call *)
  destruct (fit_or_not (round_up4 n2) (pre ++ (b1 :: rest1) ++ post))
    as [Hnone | (pre2 & b2 & post2 & E & Hun2 & Hfit2)].
  { rewrite (dm_alloc_none size_min size_max n2 _ m1 Har1 ltac:(lia) Hnone)
      in Ha2. discriminate. }
  rewrite E in Har1.
  destruct (dm_alloc_taken size_min size_max n2 pre2 b2 post2 m1 Har1
              ltac:(lia) Hun2 Hfit2)
    as (b2' & rest2 & Ha2' & Hu2 & Hs2 & Hlen2 & Hok2).
  rewrite Ha2' in Ha2.
  assert (Ho2 : payload_of pre2 = WorkMem o2) by congruence.
  assert (Hm2 : layout (pre2 ++ (b2' :: rest2) ++ post2) = m2) by congruence.
  clear Ha2.
  assert (Hlen2n : blk_size b2' + len (layout rest2) = blk_size b2).
  { rewrite !len_layout_cons in Hlen2.
    change (len (layout [])) with 0 in Hlen2. lia. }
  destruct (fits_size _ _ Hfit2) as [Hfree2 Hle2].
  assert (Hne : b1 <> b2) by (intros ->; congruence).
  assert (Har2 : arena (pre2 ++ (b2' :: rest2) ++ post2) m2).
  { destruct Har1 as (Hm & Hl & Hok). subst m2. split; [reflexivity|]. split.
    - rewrite <- Hl, Hm. lenl. lia.
    - forall_split. destruct Hok as (Hp & _ & Hq).
      specialize (Hok2 ltac:(lia)). forall_split. tauto. }
  pose proof (blk_size_nonneg b1) as Hb1.
  pose proof (blk_size_nonneg b2') as Hb2.
  assert (Hs1' : n1 <= blk_size b1).
  { destruct (blk_size b =? round_up4 n1 + header_size);
      unfold header_size in Hs1; lia. }
  assert (Hs2' : n2 <= blk_size b2').
  { destruct (blk_size b2 =? round_up4 n2 + header_size);
      unfold header_size in Hs2; lia. }
  assert (Hle2' : blk_size b2' <= blk_size b2).
  { pose proof (len_nonneg (layout rest2)). lia. }
  exists (blk_size b1), (blk_size b2').
  assert (G2 : dm_get_size (WorkMem o2) m2 = Some (blk_size b2', m2)).
  { rewrite <- Ho2.
    apply (dm_get_size_payload pre2 b2' (rest2 ++ post2)).
    - rewrite <- Hm2. reflexivity.
    - apply (arena_blk_lt size_max pre2 b2' (rest2 ++ post2) m2).
      replace (pre2 ++ b2' :: rest2 ++ post2)
        with (pre2 ++ (b2' :: rest2) ++ post2) by list_eq.
      exact Har2. }
  change ((b1 :: rest1) ++ post) with (b1 :: rest1 ++ post) in E.
  destruct (two_positions b1 b2 pre (rest1 ++ post) pre2 post2 E Hne)
    as [(l & Hp2 & Hq) | (l & Hp & Hq)].
  - (* the second block lies behind the first *)
    assert (Hbs2 : pre2 ++ (b2' :: rest2) ++ post2
                   = pre ++ b1 :: (l ++ (b2' :: rest2) ++ post2))
      by (rewrite Hp2; list_eq).
    rewrite Hbs2 in Har2.
    split; [| split; [exact G2 | split; [exact Hs1' | split; [exact Hs2' |]]]].
    + rewrite <- Ho1.
      apply (dm_get_size_payload pre b1 (l ++ (b2' :: rest2) ++ post2)).
      * rewrite <- Hm2, Hbs2. reflexivity.
      * exact (arena_blk_lt size_max _ _ _ _ Har2).
    + left. unfold payload_of in Ho1, Ho2.
      injection Ho1 as Ho1. injection Ho2 as Ho2.
      rewrite Hp2, len_layout_app, len_layout_cons in Ho2.
      pose proof (len_nonneg (layout l)). unfold header_size in *. lia.
  - (* the second block lies before the first *)
    assert (Hbs2 : pre2 ++ (b2' :: rest2) ++ post2
                   = (pre2 ++ (b2' :: rest2) ++ l) ++ b1 :: rest1 ++ post)
      by (rewrite Hq; list_eq).
    rewrite Hbs2 in Har2.
    assert (Hpay : payload_of (pre2 ++ (b2' :: rest2) ++ l) = payload_of pre).
    { apply payload_of_same_len. rewrite Hp. lenl. lia. }
    split; [| split; [exact G2 | split; [exact Hs1' | split; [exact Hs2' |]]]].
    + rewrite <- Ho1, <- Hpay.
      apply (dm_get_size_payload _ b1 (rest1 ++ post)).
      * rewrite <- Hm2, Hbs2. reflexivity.
      * exact (arena_blk_lt size_max _ _ _ _ Har2).
    + right. unfold payload_of in Ho1, Ho2.
      injection Ho1 as Ho1. injection Ho2 as Ho2.
      rewrite Hp, len_layout_app, len_layout_cons in Ho1.
      pose proof (len_nonneg (layout l)). unfold header_size in *. lia.
Qed.
End Sequences2.

(** * Examples for the further properties *)

(** [dm_init] on a 32-byte pool that holds the chain of [pool32_a]. *)
Lemma dm_init_resets_witness :
  @dm_init conf32 pool32_a = Some (tt, layout [free_blk (skipn 4 pool32_a)])
  /\ blk_size (free_blk (skipn 4 pool32_a)) = @DM_MEM_SIZE conf32 - header_size
  /\ skipn 4 (layout [free_blk (skipn 4 pool32_a)]) = skipn 4 pool32_a
  /\ @arena conf32 [free_blk (skipn 4 pool32_a)]
       (layout [free_blk (skipn 4 pool32_a)]).
Proof.
  apply (@dm_init_resets conf32 (proj1 size32) (proj2 size32) pool32_a).
  - vm_compute. reflexivity.
  - vm_compute. reflexivity.
Defined.

(** [dm_alloc(8)] on a fresh 32-byte pool. *)
Lemma dm_alloc_first_fit_witness :
  (Forall (unfit (ceil4 8)) [free_blk (zeros 28)] ->
   @dm_alloc conf32 8 pool32 = Some (NULL, pool32))
  /\ (forall pre b post,
        [free_blk (zeros 28)] = pre ++ b :: post ->
        Forall (unfit (ceil4 8)) pre -> fits (ceil4 8) b = true ->
        exists b' rest,
          @dm_alloc conf32 8 pool32
          = Some (payload_of pre, layout (pre ++ (b' :: rest) ++ post))
          /\ blk_used b' = true
          /\ len (layout (b' :: rest)) = len (layout [b])).
Proof.
  apply (@dm_alloc_first_fit conf32 (proj1 size32) (proj2 size32) 8
           [free_blk (zeros 28)] pool32).
  - arena_tac.
  - vm_compute. split; congruence.
Defined.

(** The block [dm_alloc(8)] hands out on a fresh 32-byte pool. *)
Lemma dm_alloc_block_in_bounds_witness :
  exists s,
    dm_get_size (WorkMem 4) pool32_a = Some (s, pool32_a)
    /\ 8 <= s /\ header_size <= 4 /\ 4 + s <= @DM_MEM_SIZE conf32.
Proof.
  apply (@dm_alloc_block_in_bounds conf32 (proj1 size32) (proj2 size32) 8
           [free_blk (zeros 28)] pool32 4 pool32_a).
  - arena_tac.
  - vm_compute. split; congruence.
  - vm_compute. reflexivity.
Defined.


(** [dm_alloc(8)], [dm_free], [dm_alloc(8)] on a fresh 32-byte pool. *)
Lemma alloc_free_alloc_round_trip_witness :
  exists m2,
    dm_free (WorkMem 4) pool32_a = Some (tt, m2)
    /\ @dm_alloc conf32 8 m2 = Some (WorkMem 4, pool32_a).
Proof.
  apply (@alloc_free_alloc_round_trip conf32 (proj1 size32) (proj2 size32) 8
           [free_blk (zeros 28)] pool32 (WorkMem 4) pool32_a).
  - arena_tac.
  - vm_compute. split; congruence.
  - vm_compute. reflexivity.
  - discriminate.
Defined.

(** [dm_free] twice on the used block of [pool32_a]. *)
Lemma dm_free_twice_witness :
  exists m',
    dm_free (payload_of []) pool32_a = Some (tt, m')
    /\ dm_free (payload_of []) m' = Some (tt, m').
Proof.
  apply (@dm_free_twice conf32 (proj2 size32) [] (used_blk (zeros 8))
           [free_blk (zeros 16)] pool32_a).
  - reflexivity.
  - reflexivity.
Defined.

(** A request of 8 bytes after [dm_init] of a 32-byte pool. *)
Lemma fresh_pool_capacity_witness :
  exists m,
    @dm_init conf32 pool32_a = Some (tt, m)
    /\ (ceil4 8 <= @DM_MEM_SIZE conf32 - header_size ->
        exists m', @dm_alloc conf32 8 m = Some (WorkMem header_size, m'))
    /\ (@DM_MEM_SIZE conf32 - header_size < ceil4 8 ->
        @dm_alloc conf32 8 m = Some (NULL, m)).
Proof.
  apply (@fresh_pool_capacity conf32 (proj1 size32) (proj2 size32) pool32_a 8).
  - vm_compute. reflexivity.
  - vm_compute. reflexivity.
  - vm_compute. split; congruence.
Defined.

(** [dm_realloc(p, 4)] of the block of 8 bytes 0xff of [pool32_b]. *)
Lemma dm_realloc_keeps_content_witness :
  dm_get_size (payload_of [free_blk (zeros 4)]) pool32_b
  = Some (blk_size (used_blk ff8), pool32_b)
  /\ read_bytes
       (layout [used_blk (repeat Byte.xff 4); free_blk ff8; free_blk (zeros 8)])
       4 (min 4 (blk_size (used_blk ff8)))
     = read_bytes pool32_b (payload_off [free_blk (zeros 4)])
         (min 4 (blk_size (used_blk ff8)))
  /\ exists bs' A' B',
       @arena conf32 bs'
         (layout [used_blk (repeat Byte.xff 4); free_blk ff8;
                  free_blk (zeros 8)])
       /\ bs' = A' ++ mark false (used_blk ff8) :: B'
       /\ payload_of A' = payload_of [free_blk (zeros 4)].
Proof.
  apply (@dm_realloc_keeps_content conf32 (proj1 size32) (proj2 size32)
           [free_blk (zeros 4)] (used_blk ff8) [free_blk (zeros 8)] 4
           pool32_b 4).
  - arena_tac.
  - reflexivity.
  - vm_compute. split; congruence.
  - vm_compute. reflexivity.
Defined.

(** The pointer [dm_realloc(p, 4)] returns on [pool32_b]. *)
Lemma dm_realloc_never_in_place_witness :
  WorkMem 4 <> payload_of [free_blk (zeros 4)].
Proof.
  apply (@dm_realloc_never_in_place conf32 (proj1 size32) (proj2 size32)
           [free_blk (zeros 4)] (used_blk ff8) [free_blk (zeros 8)] 4
           pool32_b (WorkMem 4)
           (layout [used_blk (repeat Byte.xff 4); free_blk ff8;
                    free_blk (zeros 8)])).
  - arena_tac.
  - reflexivity.
  - vm_compute. split; congruence.
  - vm_compute. reflexivity.
Defined.

(** The pool after [dm_init] and [dm_alloc(8)]. *)
Lemma reachable_pool_tiled_witness :
  exists bs,
    @arena conf32 bs pool32_a
    /\ @chain conf32 pool32_a = Some (entries_from 0 bs, pool32_a)
    /\ @tiles conf32 pool32_a = true.
Proof.
  apply (@reachable_pool_tiled conf32 (proj1 size32) (proj2 size32) pool32_a).
  - vm_compute. reflexivity.
  - apply (@reach_call conf32 [free_blk (zeros 28)] pool32 (Alloc 8) pool32_a).
    + apply reach_init. vm_compute. reflexivity.
    + arena_tac.
    + vm_compute. split; congruence.
    + vm_compute. reflexivity.
Defined.

(** [ent_get_next] from the first block of [pool32_a]. *)
Lemma ent_get_next_follows_chain_witness :
  @ent_get_next conf32 NULL pool32_a = Some (WorkMem 0, pool32_a)
  /\ @ent_get_next conf32 (WorkMem (len (layout []))) pool32_a
     = Some (WorkMem (len (layout []) + header_size
                      + blk_size (used_blk (zeros 8))), pool32_a).
Proof.
  apply (@ent_get_next_follows_chain conf32 (proj2 size32) []
           (used_blk (zeros 8)) [free_blk (zeros 16)] pool32_a).
  arena_tac.
Defined.

(** The walk on [pool32_c], whose third header is made of payload bytes. *)
Lemma walk_stays_in_pool_witness :
  exists es,
    @chain conf32 pool32_c = Some (es, pool32_c)
    /\ es <> [] /\ Forall (@entry_in_pool conf32) es.
Proof.
  apply (@walk_stays_in_pool conf32 (proj1 size32) pool32_c).
  vm_compute. reflexivity.
Defined.

(** [dm_monitor] on a 16-byte pool whose only block is in use. *)
Lemma dm_monitor_all_used_witness :
  @dm_monitor conf16 pool16_full = None
  <-> Forall (fun b => blk_used b = true) [used_blk (zeros 12)].
Proof.
  apply (@dm_monitor_all_used conf16 (proj1 size16) (proj2 size16)
           [used_blk (zeros 12)] pool16_full).
  arena_tac.
Defined.

(** The report of [dm_monitor] on [pool32_a]. *)
Lemma dm_monitor_bounds_witness :
  0 <= 0 <= 100
  /\ 0 < 1 /\ 0 <= 1
  /\ 0 < 16 <= 16
  /\ header_size * (1 + 1) + 16 <= @DM_MEM_SIZE conf32
  /\ (1 = 1 -> 0 = 0).
Proof.
  apply (@dm_monitor_bounds conf32 (proj1 size32) (proj2 size32)
           [used_blk (zeros 8); free_blk (zeros 16)] pool32_a
           {| cnt_free := 1; cnt_used := 1; size_free := 16;
              size_free_big := 16; pct_frag := 0 |} pool32_a).
  - vm_compute. reflexivity.
  - arena_tac.
  - vm_compute. reflexivity.
Defined.

(** [dm_free] of the used block of [pool32_a], then [dm_monitor]. *)
Lemma dm_free_then_monitor_witness :
  exists m',
    dm_free (payload_of []) pool32_a = Some (tt, m')
    /\ @dm_monitor conf32 m'
       = Some ({| cnt_free :=
                    count_free ([] ++ used_blk (zeros 8) :: [free_blk (zeros 16)])
                    + 1;
                  cnt_used :=
                    count_used ([] ++ used_blk (zeros 8) :: [free_blk (zeros 16)])
                    - 1;
                  size_free :=
                    total_free ([] ++ used_blk (zeros 8) :: [free_blk (zeros 16)])
                    + blk_size (used_blk (zeros 8));
                  size_free_big :=
                    Z.max
                      (largest_free
                         ([] ++ used_blk (zeros 8) :: [free_blk (zeros 16)]))
                      (blk_size (used_blk (zeros 8)));
                  pct_frag :=
                    100 - wrap32
                            (Z.max
                               (largest_free
                                  ([] ++ used_blk (zeros 8)
                                      :: [free_blk (zeros 16)]))
                               (blk_size (used_blk (zeros 8))) * 100)
                          / (total_free
                               ([] ++ used_blk (zeros 8) :: [free_blk (zeros 16)])
                             + blk_size (used_blk (zeros 8))) |},
               m').
Proof.
  apply (@dm_free_then_monitor conf32 (proj1 size32) (proj2 size32) []
           (used_blk (zeros 8)) [free_blk (zeros 16)] pool32_a).
  - arena_tac.
  - reflexivity.
Defined.

(** Two used blocks of 8 and 16 bytes fill a 32-byte pool; once both are
    freed, 28 bytes in a row are free, and [dm_alloc(20)] returns [NULL]. *)
Lemma freed_neighbours_not_merged_witness :
  (dm_free (payload_of []) ;;
   dm_free (payload_of ([] ++ [used_blk (zeros 8)])) ;;
   @dm_defrag ;; @dm_alloc conf32 20)
    (layout [used_blk (zeros 8); used_blk (zeros 16)])
  = Some (NULL,
          layout ([] ++ mark false (used_blk (zeros 8))
                     :: mark false (used_blk (zeros 16)) :: [])).
Proof.
  apply (@freed_neighbours_not_merged conf32 (proj1 size32) (proj2 size32) 20
           [] (used_blk (zeros 8)) (used_blk (zeros 16)) []
           (layout [used_blk (zeros 8); used_blk (zeros 16)])).
  - arena_tac.
  - reflexivity.
  - reflexivity.
  - vm_compute. split; congruence.
  - vm_compute. reflexivity.
  - vm_compute. reflexivity.
  - constructor.
  - constructor.
Defined.

(** [dm_alloc(8)] then [dm_alloc(4)] on a fresh 32-byte pool. *)
Lemma successive_allocs_disjoint_witness :
  exists s1 s2,
    dm_get_size (WorkMem 4)
      (layout [used_blk (zeros 8); used_blk (zeros 4); free_blk (zeros 8)])
    = Some (s1, layout [used_blk (zeros 8); used_blk (zeros 4);
                        free_blk (zeros 8)])
    /\ dm_get_size (WorkMem 16)
         (layout [used_blk (zeros 8); used_blk (zeros 4); free_blk (zeros 8)])
       = Some (s2, layout [used_blk (zeros 8); used_blk (zeros 4);
                           free_blk (zeros 8)])
    /\ 8 <= s1 /\ 4 <= s2
    /\ (4 + s1 + header_size <= 16 \/ 16 + s2 + header_size <= 4).
Proof.
  apply (@successive_allocs_disjoint conf32 (proj1 size32) (proj2 size32) 8 4
           [free_blk (zeros 28)] pool32 4 pool32_a 16).
  - arena_tac.
  - vm_compute. split; congruence.
  - vm_compute. split; congruence.
  - vm_compute. reflexivity.
  - vm_compute. reflexivity.
Defined.

(** * Requests and pools at which the 32-bit arithmetic wraps *)

Lemma stats_single d :
  count_free [free_blk d] = 1 /\ count_used [free_blk d] = 0
  /\ total_free [free_blk d] = blk_size (free_blk d)
  /\ largest_free [free_blk d] = blk_size (free_blk d).
Proof.
  pose proof (blk_size_nonneg (free_blk d)).
  unfold count_free, count_used, total_free, largest_free, free_sizes.
  cbn [filter blk_used free_blk negb map fold_right length].
  repeat split; lia.
Qed.

Lemma size_big :
  8 <= @DM_MEM_SIZE conf_big /\ @DM_MEM_SIZE conf_big <= 2 ^ 31
  /\ @DM_MEM_SIZE conf_big mod 4 = 0.
Proof. split; [discriminate | split; [discriminate | reflexivity]]. Qed.

Lemma blk_big_size : blk_size blk_big = 42949676.
Proof.
  assert (Hl : len (@work_mem0 conf_big) = @DM_MEM_SIZE conf_big).
  { unfold len, work_mem0. rewrite repeat_length. apply Z2Nat.id.
    discriminate. }
  destruct (@dm_init_arena conf_big (proj1 size_big) (proj1 (proj2 size_big))
              (proj2 (proj2 size_big)) (@work_mem0 conf_big) Hl)
    as (_ & _ & Hlen & _).
  fold blk_big in Hlen. rewrite len_layout_cons in Hlen.
  change (len (layout [])) with 0 in Hlen.
  change (@DM_MEM_SIZE conf_big) with 42949680 in Hlen.
  unfold header_size in Hlen. lia.
Qed.

(** C5 on a pool of 42949680 bytes right after [dm_init]: its single free
    block has 42949676 bytes, so the percentage
    [100 - 100 * largest_free / total_free] is 0; [dm_monitor] reports 100,
    because [size_free_big * 100U] is 4294967600 and is reduced modulo
    [2 ^ 32] to 304 before the division. *)
Theorem dm_monitor_pct_wraps :
  @dm_init conf_big (@work_mem0 conf_big) = Some (tt, layout [blk_big])
  /\ @arena conf_big [blk_big] (layout [blk_big])
  /\ 0 < total_free [blk_big]
  /\ 100 - 100 * largest_free [blk_big] / total_free [blk_big] = 0
  /\ @dm_monitor conf_big (layout [blk_big])
     = Some ({| cnt_free := 1; cnt_used := 0;
                size_free := 42949676; size_free_big := 42949676;
                pct_frag := 100 |}, layout [blk_big]).
Proof.
  assert (Hl : len (@work_mem0 conf_big) = @DM_MEM_SIZE conf_big).
  { unfold len, work_mem0. rewrite repeat_length. apply Z2Nat.id.
    discriminate. }
  destruct (@dm_init_arena conf_big (proj1 size_big) (proj1 (proj2 size_big))
              (proj2 (proj2 size_big)) (@work_mem0 conf_big) Hl) as [Hi Har].
  fold blk_big in Hi, Har.
  destruct (stats_single (skipn 4 (@work_mem0 conf_big)))
    as (Hcf & Hcu & Htf & Hlf).
  fold blk_big in Hcf, Hcu, Htf, Hlf.
  rewrite blk_big_size in Htf, Hlf.
  split; [exact Hi|]. split; [exact Har|].
  rewrite Htf, Hlf. split; [reflexivity|]. split; [reflexivity|].
  rewrite (@monitor_eval conf_big (proj1 size_big) (proj1 (proj2 size_big))
             [blk_big] _ Har).
  rewrite Hcf, Hcu, Htf, Hlf. reflexivity.
Qed.

(** C8 at a request that wraps: no block of a 32-byte pool has the
    4294967296 bytes that 4294967295 rounds up to, so [NULL] and an
    untouched pool are expected.  On the fresh pool [dm_alloc] returns the
    payload of the first block and rewrites two headers; on [pool32_a]
    [dm_realloc] of the used block returns a pointer into the pool and the
    block it was given is freed. *)
Theorem dm_alloc_exhausted_wraps :
  ceil4 4294967295 = 4294967296
  /\ @dm_init conf32 (@work_mem0 conf32) = Some (tt, pool32)
  /\ @dm_alloc conf32 8 pool32 = Some (WorkMem 4, pool32_a)
  /\ @arena conf32 [free_blk (zeros 28)] pool32
  /\ Forall (unfit (ceil4 4294967295)) [free_blk (zeros 28)]
  /\ @dm_alloc conf32 4294967295 pool32 = Some (WorkMem 4, pool32_w)
  /\ pool32_w <> pool32
  /\ @arena conf32 [used_blk (zeros 8); free_blk (zeros 16)] pool32_a
  /\ Forall (unfit (ceil4 4294967295)) [used_blk (zeros 8); free_blk (zeros 16)]
  /\ @dm_realloc conf32 (payload_of []) 4294967295 pool32_a
     = Some (WorkMem 16, pool32_r)
  /\ get_used (WorkMem 0) pool32_a = Some (1, pool32_a)
  /\ get_used (WorkMem 0) pool32_r = Some (0, pool32_r).
Proof.
  split; [reflexivity|].
  split; [vm_compute; reflexivity|]. split; [vm_compute; reflexivity|].
  split; [arena_tac|].
  split; [repeat constructor|].
  split; [vm_compute; reflexivity|].
  split; [vm_compute; discriminate|].
  split; [arena_tac|].
  split; [repeat constructor|].
  conjs; vm_compute; reflexivity.
Qed.
